(** * discord-action: the notification builder and the delivery client

    A shallow embedding of [src/index.js]: [getEventMetadata],
    [getStatusStyling], [buildEmbed] and the response handling of
    [sendDiscordMessage], with the JavaScript built-ins they call. *)

From Stdlib Require Import List NArith ZArith Bool String Ascii Lia.
From Stdlib Require Import DecimalString.
Import ListNotations.

Set Implicit Arguments.

(* ================================================================= *)
(** ** JavaScript values and built-ins *)
(* ================================================================= *)

Module JS.

(** A JavaScript string is a sequence of UTF-16 code units; [length],
    [substring] and [split] all count code units. *)
Definition char16 := N.
Definition jsstring := list char16.

(** An ASCII literal of the source, as code units. *)
Definition str (s : string) : jsstring :=
  map N_of_ascii (list_ascii_of_string s).

(** UTF-16 encoding of one code point (for the emoji of the source). *)
Definition utf16 (cp : N) : jsstring :=
  if (cp <? 0x10000)%N then [cp]
  else [(0xD800 + N.shiftr (cp - 0x10000) 10)%N;
        (0xDC00 + N.land (cp - 0x10000) 0x3FF)%N].

Fixpoint streq (a b : jsstring) : bool :=
  match a, b with
  | [], [] => true
  | x :: a', y :: b' => (x =? y)%N && streq a' b'
  | _, _ => false
  end.

(** Number values: an integral Number, NaN, or an infinity.  [Int z]
    is the Number nearest to the integer [z]: a Number is a double, so
    it is [z] itself below 2^53 and [z] rounded to 53 significant bits
    beyond (see [roundInt], which [parseInt16] applies and [toString]
    reads through). *)
Inductive jsnumber := Int (z : Z) | NaN | Infinity (negative : bool).

(** The primitive values the program reads from its loosely typed
    inputs and interpolates into template literals. *)
Inductive prim :=
| Undefined
| Null
| Boolean (b : bool)
| Num (n : jsnumber)
| Str (s : jsstring).

(** ToBoolean: what [if (v)], [v ? a : b], [v || d] and [v && w] test. *)
Definition truthy (v : prim) : bool :=
  match v with
  | Undefined | Null => false
  | Boolean b => b
  | Num (Int z) => negb (z =? 0)%Z
  | Num NaN => false
  | Num (Infinity _) => true
  | Str s => negb (streq s [])
  end.

(** *** Numbers as doubles *)

(** The Number nearest to the integer [z], as the engine keeps it: [z]
    itself below 2^53, and beyond that [z] rounded to 53 significant
    bits, a tie going to the even one, or an infinity from 2^1024 on. *)
Definition roundInt (z : Z) : jsnumber :=
  let a := Z.abs z in
  if (a <? 2 ^ 53)%Z then Int z
  else
    let ulp := (2 ^ (Z.log2 a - 52))%Z in
    let q := (a / ulp)%Z in
    let r := (a mod ulp)%Z in
    let q' := if (ulp <? 2 * r)%Z || ((2 * r =? ulp)%Z && Z.odd q)
              then (q + 1)%Z else q in
    let m := (q' * ulp)%Z in
    if (2 ^ 1024 <=? m)%Z then Infinity (z <? 0)%Z
    else Int (Z.sgn z * m).

(** The decimal digits of an integer, with its sign. *)
Definition decimal (z : Z) : jsstring :=
  str (NilZero.string_of_int (Z.to_int z)).

Definition roundsTo (c m : Z) : bool :=
  match roundInt c with
  | Int m' => (m' =? m)%Z
  | _ => false
  end.

(** The integer Number::toString writes for the Number [m] (an integer
    of 2^53 or more): of the integers that round to [m], one with the
    fewest significant digits, and of those the nearest to [m].  The
    multiples of 10^j next to [m] are tried from the coarsest on. *)
Fixpoint shortest (j : nat) (m : Z) : Z :=
  let p := (10 ^ Z.of_nat j)%Z in
  let lower := (m / p * p)%Z in
  let upper := (lower + p)%Z in
  match roundsTo lower m, roundsTo upper m with
  | true, true =>
      if (m - lower <? upper - m)%Z then lower
      else if (upper - m <? m - lower)%Z then upper
      else if Z.even (m / p) then lower else upper
  | true, false => lower
  | false, true => upper
  | false, false =>
      match j with
      | O => m
      | S j' => shortest j' m
      end
  end.

(** [digits] without the zeros at its end. *)
Fixpoint stripZeros (digits : jsstring) : jsstring :=
  match digits with
  | [] => []
  | d :: rest =>
      match stripZeros rest with
      | [] => if (d =? 48)%N then [] else [d]
      | rest' => d :: rest'
      end
  end.

(** Number::toString for the Number [m], an integer of 2^53 or more:
    all its digits below 10^21, and from there on the digits that
    count, a point after the first of them, and the exponent. *)
Definition largeToString (m : Z) : jsstring :=
  let c := shortest (List.length (decimal m)) m in
  if (c <? 10 ^ 21)%Z then decimal c
  else
    match stripZeros (decimal c) with
    | [] => []
    | d :: rest =>
        (d :: match rest with
              | [] => []
              | _ :: _ => str "." ++ rest
              end)
        ++ str "e+" ++ decimal (Z.of_nat (List.length (decimal c)) - 1)
    end.

(** Number::toString. *)
Definition numberToString (n : jsnumber) : jsstring :=
  match n with
  | Int z =>
      if (Z.abs z <? 2 ^ 53)%Z then decimal z
      else match roundInt z with
           | Int m =>
               (if (m <? 0)%Z then str "-" else []) ++ largeToString (Z.abs m)
           | Infinity true => str "-Infinity"
           | Infinity false => str "Infinity"
           | NaN => str "NaN"
           end
  | NaN => str "NaN"
  | Infinity true => str "-Infinity"
  | Infinity false => str "Infinity"
  end.

(** ToString, as applied by [`${v}`]. *)
Definition toString (v : prim) : jsstring :=
  match v with
  | Undefined => str "undefined"
  | Null => str "null"
  | Boolean true => str "true"
  | Boolean false => str "false"
  | Num n => numberToString n
  | Str s => s
  end.

(** An optional string property: absent reads as [undefined]. *)
Definition ofString (o : option jsstring) : prim :=
  match o with Some s => Str s | None => Undefined end.

(** [o || d] for an optional string [o] and a string default [d]. *)
Definition orElse (o : option jsstring) (d : jsstring) : jsstring :=
  match o with
  | Some s => if streq s [] then d else s
  | None => d
  end.

(** [s.substring(0, n)]. *)
Definition substring0 (n : nat) (s : jsstring) : jsstring := firstn n s.

Fixpoint startsWith (pat s : jsstring) : bool :=
  match pat, s with
  | [], _ => true
  | p :: pat', c :: s' => (p =? c)%N && startsWith pat' s'
  | _ :: _, [] => false
  end.

(** [s.replace(pat, repl)] for a string pattern: the first occurrence of
    [pat] in [s], wherever it is, is replaced ([repl] has no [$]). *)
Fixpoint replace (pat repl s : jsstring) : jsstring :=
  if startsWith pat s then repl ++ skipn (List.length pat) s
  else match s with
       | [] => []
       | c :: s' => c :: replace pat repl s'
       end.

(** [s.split('\n')[0]]: the text before the first line feed. *)
Fixpoint firstLine (s : jsstring) : jsstring :=
  match s with
  | [] => []
  | c :: s' => if (c =? 10)%N then [] else c :: firstLine s'
  end.

(** [lines.join('\n')]. *)
Fixpoint join (sep : jsstring) (l : list jsstring) : jsstring :=
  match l with
  | [] => []
  | [x] => x
  | x :: rest => x ++ sep ++ join sep rest
  end.

(** *** [parseInt(s, 16)] *)

(** WhiteSpace and LineTerminator code units, skipped at the start. *)
Definition isWhiteSpace (c : char16) : bool :=
  existsb (N.eqb c)
    [0x09; 0x0A; 0x0B; 0x0C; 0x0D; 0x20; 0xA0; 0x1680;
     0x2000; 0x2001; 0x2002; 0x2003; 0x2004; 0x2005; 0x2006; 0x2007;
     0x2008; 0x2009; 0x200A; 0x2028; 0x2029; 0x202F; 0x205F; 0x3000;
     0xFEFF]%N.

Fixpoint trimStart (s : jsstring) : jsstring :=
  match s with
  | c :: s' => if isWhiteSpace c then trimStart s' else s
  | [] => []
  end.

Definition hexDigit (c : char16) : option Z :=
  if ((48 <=? c) && (c <=? 57))%N then Some (Z.of_N c - 48)%Z
  else if ((97 <=? c) && (c <=? 102))%N then Some (Z.of_N c - 87)%Z
  else if ((65 <=? c) && (c <=? 70))%N then Some (Z.of_N c - 55)%Z
  else None.

(** The longest prefix of hexadecimal digits, accumulated left to right;
    [None] when there is no digit at all.  The value is the exact
    integer, which [parseInt16] then rounds to a Number. *)
Fixpoint hexDigits (acc : option Z) (s : jsstring) : option Z :=
  match s with
  | [] => acc
  | c :: s' =>
      match hexDigit c with
      | Some d =>
          hexDigits (Some (16 * match acc with Some a => a | None => 0 end + d)%Z) s'
      | None => acc
      end
  end.

Definition parseInt16 (s : jsstring) : jsnumber :=
  let input := trimStart s in
  let '(sign, unsigned) :=
    match input with
    | c :: rest => if (c =? 45)%N then ((-1)%Z, rest)
                   else if (c =? 43)%N then (1%Z, rest)
                   else (1%Z, input)
    | [] => (1%Z, input)
    end in
  let digits :=
    match unsigned with
    | c0 :: cx :: rest =>
        if ((c0 =? 48) && ((cx =? 120) || (cx =? 88)))%N then rest else unsigned
    | _ => unsigned
    end in
  match hexDigits None digits with
  | Some v => roundInt (sign * v)
  | None => NaN
  end.

(** *** ASCII case mapping *)

(** [toLowerCase] restricted to ASCII text, where it maps [A-Z] to
    [a-z] and nothing else. *)
Definition asciiLower (s : jsstring) : jsstring :=
  map (fun c => if ((65 <=? c) && (c <=? 90))%N then (c + 32)%N else c) s.

(** [l.toUpperCase()] for one ASCII code unit. *)
Definition upperChar (c : char16) : char16 :=
  if ((97 <=? c) && (c <=? 122))%N then (c - 32)%N else c.

(** The class [\w] of a regular expression without flags. *)
Definition isWordChar (c : char16) : bool :=
  ((48 <=? c) && (c <=? 57) || (65 <=? c) && (c <=? 90)
   || (97 <=? c) && (c <=? 122) || (c =? 95))%N.

(** [s.replace(/_/g, ' ')]. *)
Definition underscoresToSpaces (s : jsstring) : jsstring :=
  map (fun c => if (c =? 95)%N then 32%N else c) s.

(** [s.replace(/\b\w/g, l => l.toUpperCase())]: every word character
    that starts the string or follows a non-word character is upper-cased.
    [boundary] tells whether the previous code unit was not a word
    character. *)
Fixpoint capitalizeWords (boundary : bool) (s : jsstring) : jsstring :=
  match s with
  | [] => []
  | c :: s' =>
      (if boundary && isWordChar c then upperChar c else c)
        :: capitalizeWords (negb (isWordChar c)) s'
  end.

(** *** Exceptions *)

Inductive jserror := TypeError.

Inductive completion (A : Type) :=
| Normal (a : A)
| Throw (e : jserror).
Arguments Normal {A} a.
Arguments Throw {A} e.

Definition bind {A B} (c : completion A) (k : A -> completion B) : completion B :=
  match c with
  | Normal a => k a
  | Throw e => Throw e
  end.

(** *** Property lookup on an object literal *)

(** The names every object inherits from [Object.prototype]; each holds
    a function or an object, so each is truthy, and none of those values
    has a property the program reads. *)
Definition objectPrototypeKeys : list jsstring :=
  map str ["constructor"; "__defineGetter__"; "__defineSetter__";
           "hasOwnProperty"; "__lookupGetter__"; "__lookupSetter__";
           "isPrototypeOf"; "propertyIsEnumerable"; "toString"; "valueOf";
           "__proto__"; "toLocaleString"]%string.

(** What [table[key]] evaluates to on an object literal [table]. *)
Inductive property (A : Type) :=
| Own (a : A)                 (* an entry written in the literal *)
| Inherited (key : jsstring)  (* a member of [Object.prototype] *)
| Missing.                    (* [undefined] *)
Arguments Own {A} a.
Arguments Inherited {A} key.
Arguments Missing {A}.

Fixpoint assoc {A} (key : jsstring) (table : list (jsstring * A)) : option A :=
  match table with
  | [] => None
  | (k, a) :: rest => if streq key k then Some a else assoc key rest
  end.

Definition get {A} (table : list (jsstring * A)) (key : jsstring) : property A :=
  match assoc key table with
  | Some a => Own a
  | None => if existsb (streq key) objectPrototypeKeys then Inherited key
            else Missing
  end.

(** [table[key] || fallback]: own entries and inherited members are
    objects, hence truthy; only a missing property takes the fallback. *)
Definition getOr {A} (table : list (jsstring * A)) (key : jsstring) (fallback : A)
  : property A :=
  match get table key with
  | Missing => Own fallback
  | p => p
  end.

(** [obj.field] on the result of a lookup: [undefined] on an inherited
    member. *)
Definition field {A} (proj : A -> prim) (p : property A) : prim :=
  match p with
  | Own a => proj a
  | _ => Undefined
  end.

End JS.

Import JS.

(* ================================================================= *)
(** ** Data model *)
(* ================================================================= *)

(** [context.payload.repository]. *)
Record Repository := {
  repo_full_name : option jsstring;
  repo_html_url : option jsstring
}.

Record PullRequest := {
  pr_number : prim;
  pr_title : prim;
  pr_html_url : prim
}.

(** One element of [payload.commits]. *)
Record Commit := { message : option jsstring }.

Record Release := {
  release_tag_name : prim;
  release_name : prim;
  release_html_url : prim
}.

Record Issue := {
  issue_number : prim;
  issue_title : prim;
  issue_html_url : prim
}.

(** [context.payload]: the properties the program reads. *)
Record Payload := {
  repository : option Repository;
  action : prim;
  review_state : prim;             (* payload.review?.state *)
  ref_type : prim;
  deployment_status_state : prim;  (* payload.deployment_status?.state *)
  pull_request : option PullRequest;
  commits : option (list Commit);
  release : option Release;
  issue : option Issue
}.

(** The GitHub context handed to [buildEmbed], as it is in a run of
    GitHub Actions: the event name is a string.  (Outside such a run
    the event name is [undefined], for which the fallback of
    [getEventMetadata] throws at [eventName.replace]; a context without
    an event name is not a [Context].) *)
Record Context := {
  eventName : jsstring;
  payload : Payload;
  workflow : option jsstring;
  runNumber : prim;
  runId : prim;
  actor : option jsstring;
  ref : option jsstring;
  sha : option jsstring
}.

(** An entry of the table in [getEventMetadata]. *)
Record EventMeta := {
  meta_emoji : jsstring;
  meta_title : jsstring;
  meta_description : jsstring;
  meta_color : Z
}.

(** An entry of the table in [getStatusStyling]. *)
Record StatusStyle := {
  style_color : Z;
  style_emoji : jsstring;
  style_label : jsstring
}.

(** An embed field. *)
Record Field := {
  name : jsstring;
  value : jsstring;
  inline : bool
}.

(** The embed object [buildEmbed] returns. *)
Record Embed := {
  title : jsstring;
  description : jsstring;
  color : prim;
  fields : list Field;
  timestamp : jsstring;
  footer_text : jsstring
}.

(* ================================================================= *)
(** ** Literals of the source *)
(* ================================================================= *)

Module Lit.
Definition newline : jsstring := [10%N].
Definition bullet := utf16 0x2022.
Definition outbox := utf16 0x1F4E4.
Definition shuffle := utf16 0x1F500.
Definition eyes := utf16 0x1F440.
Definition rocket := utf16 0x1F680.
Definition bug := utf16 0x1F41B.
Definition speech := utf16 0x1F4AC.
Definition play := utf16 0x25B6 ++ utf16 0xFE0F.
Definition alarm := utf16 0x23F0.
Definition sparkles := utf16 0x2728.
Definition wastebasket := utf16 0x1F5D1 ++ utf16 0xFE0F.
Definition ship := utf16 0x1F6A2.
Definition chart := utf16 0x1F4CA.
Definition arrows := utf16 0x1F504.
Definition bell := utf16 0x1F514.
Definition check := utf16 0x2705.
Definition cross := utf16 0x274C.
Definition warning := utf16 0x26A0 ++ utf16 0xFE0F.
Definition next_track := utf16 0x23ED ++ utf16 0xFE0F.
Definition package := utf16 0x1F4E6.
Definition bust := utf16 0x1F464.
Definition herb := utf16 0x1F33F.
Definition numbers := utf16 0x1F522.
Definition memo := utf16 0x1F4DD.
Definition link := utf16 0x1F517.
Definition clipboard := utf16 0x1F4CB.
End Lit.

(* ================================================================= *)
(** ** getEventMetadata *)
(* ================================================================= *)

(** [cond ? `${prefix}${cond}${suffix}` : otherwise]. *)
Definition describe (cond : prim) (prefix suffix otherwise : jsstring) : jsstring :=
  if truthy cond then prefix ++ toString cond ++ suffix else otherwise.

Definition metadata (payload : Payload) : list (jsstring * EventMeta) :=
  [ (str "push",
     {| meta_emoji := Lit.outbox; meta_title := str "Push";
        meta_description := str "Code pushed to repository";
        meta_color := 0x0366d6 |});
    (str "pull_request",
     {| meta_emoji := Lit.shuffle; meta_title := str "Pull Request";
        meta_description :=
          describe (action payload) (str "PR ") [] (str "Pull Request event");
        meta_color := 0x6f42c1 |});
    (str "pull_request_review",
     {| meta_emoji := Lit.eyes; meta_title := str "PR Review";
        meta_description :=
          describe (review_state payload) (str "Review ") []
                   (str "Pull Request reviewed");
        meta_color := 0x6f42c1 |});
    (str "release",
     {| meta_emoji := Lit.rocket; meta_title := str "Release";
        meta_description :=
          describe (action payload) (str "Release ") [] (str "Release event");
        meta_color := 0x17a2b8 |});
    (str "issues",
     {| meta_emoji := Lit.bug; meta_title := str "Issue";
        meta_description :=
          describe (action payload) (str "Issue ") [] (str "Issue event");
        meta_color := 0xfd7e14 |});
    (str "issue_comment",
     {| meta_emoji := Lit.speech; meta_title := str "Issue Comment";
        meta_description := str "Comment on issue";
        meta_color := 0xfd7e14 |});
    (str "workflow_dispatch",
     {| meta_emoji := Lit.play; meta_title := str "Manual Trigger";
        meta_description := str "Workflow manually triggered";
        meta_color := 0x0366d6 |});
    (str "schedule",
     {| meta_emoji := Lit.alarm; meta_title := str "Scheduled Run";
        meta_description := str "Workflow triggered by schedule";
        meta_color := 0x0366d6 |});
    (str "create",
     {| meta_emoji := Lit.sparkles; meta_title := str "Branch/Tag Created";
        meta_description :=
          describe (ref_type payload) [] (str " created") (str "Reference created");
        meta_color := 0x28a745 |});
    (str "delete",
     {| meta_emoji := Lit.wastebasket; meta_title := str "Branch/Tag Deleted";
        meta_description :=
          describe (ref_type payload) [] (str " deleted") (str "Reference deleted");
        meta_color := 0x6c757d |});
    (str "deployment",
     {| meta_emoji := Lit.ship; meta_title := str "Deployment";
        meta_description := str "Deployment event";
        meta_color := 0x17a2b8 |});
    (str "deployment_status",
     {| meta_emoji := Lit.chart; meta_title := str "Deployment Status";
        meta_description :=
          describe (deployment_status_state payload) (str "Deployment ") []
                   (str "Deployment status update");
        meta_color := 0x17a2b8 |});
    (str "workflow_run",
     {| meta_emoji := Lit.arrows; meta_title := str "Workflow Run";
        meta_description :=
          describe (action payload) (str "Workflow ") [] (str "Workflow run event");
        meta_color := 0x0366d6 |}) ].

Definition getEventMetadata (eventName : jsstring) (payload : Payload)
  : property EventMeta :=
  getOr (metadata payload) eventName
    {| meta_emoji := Lit.bell;
       meta_title := capitalizeWords true (underscoresToSpaces eventName);
       meta_description := str "GitHub event triggered";
       meta_color := 0x0366d6 |}.

(* ================================================================= *)
(** ** getStatusStyling *)
(* ================================================================= *)

Definition styling_success : StatusStyle :=
  {| style_color := 0x28a745; style_emoji := Lit.check; style_label := str "Success" |}.
Definition styling_failure : StatusStyle :=
  {| style_color := 0xdc3545; style_emoji := Lit.cross; style_label := str "Failed" |}.
Definition styling_cancelled : StatusStyle :=
  {| style_color := 0x6c757d; style_emoji := Lit.warning; style_label := str "Cancelled" |}.
Definition styling_skipped : StatusStyle :=
  {| style_color := 0xffc107; style_emoji := Lit.next_track; style_label := str "Skipped" |}.

Definition styling : list (jsstring * StatusStyle) :=
  [ (str "success", styling_success);
    (str "failure", styling_failure);
    (str "cancelled", styling_cancelled);
    (str "skipped", styling_skipped) ].

(* ================================================================= *)
(** ** buildEmbed: the blocks that push fields *)
(* ================================================================= *)

(** [fields.push(f)]. *)
Definition push (fields : list Field) (f : Field) : list Field := fields ++ [f].

(** [if (repoUrl) { fields.push(...) } else { fields.push(...) }]. *)
Definition pushRepository (repoName repoUrl : jsstring) (fields : list Field)
  : list Field :=
  if truthy (Str repoUrl)
  then push fields
         {| name := Lit.package ++ str " Repository";
            value := str "[" ++ repoName ++ str "](" ++ repoUrl ++ str ")";
            inline := true |}
  else push fields
         {| name := Lit.package ++ str " Repository";
            value := repoName;
            inline := true |}.

(** [refName.replace('refs/heads/', '').replace('refs/tags/', '')]. *)
Definition displayRef (refName : jsstring) : jsstring :=
  replace (str "refs/tags/") [] (replace (str "refs/heads/") [] refName).

(** [if (commitSha !== 'Unknown' && repoUrl) {...}
     else if (commitSha !== 'Unknown') {...}]. *)
Definition pushCommit (commitSha repoUrl : jsstring) (fields : list Field)
  : list Field :=
  if negb (streq commitSha (str "Unknown")) && truthy (Str repoUrl)
  then push fields
         {| name := Lit.memo ++ str " Commit";
            value := str "[" ++ substring0 7 commitSha ++ str "]("
                     ++ repoUrl ++ str "/commit/" ++ commitSha ++ str ")";
            inline := true |}
  else if negb (streq commitSha (str "Unknown"))
  then push fields
         {| name := Lit.memo ++ str " Commit";
            value := substring0 7 commitSha;
            inline := true |}
  else fields.

(** [if (eventName === 'pull_request' && payload.pull_request) {...}]. *)
Definition pushPullRequest (eventName : jsstring) (payload : Payload)
    (fields : list Field) : list Field :=
  match pull_request payload with
  | Some pr =>
      if streq eventName (str "pull_request")
      then push fields
             {| name := Lit.link ++ str " Pull Request";
                value := str "[#" ++ toString (pr_number pr) ++ str " - "
                         ++ toString (pr_title pr) ++ str "]("
                         ++ toString (pr_html_url pr) ++ str ")";
                inline := false |}
      else fields
  | None => fields
  end.

(** The callback mapped over the first commits:
    [c => { const msg = c.message?.split('\n')[0] || 'No message';
            return `* ${msg.substring(0, 100)}`; }]  (with a bullet for [*]). *)
Definition commitLine (c : Commit) : jsstring :=
  let msg := orElse (option_map firstLine (message c)) (str "No message") in
  Lit.bullet ++ str " " ++ substring0 100 msg.

(** [payload.commits.slice(0, 3).map(...).join('\n')]. *)
Definition commitMessages (cs : list Commit) : jsstring :=
  join Lit.newline (map commitLine (firstn 3 cs)).

(** [if (eventName === 'push' && payload.commits && payload.commits.length > 0)
     { ...; if (commitMessages) { fields.push(...) } }]. *)
Definition pushRecentCommits (eventName : jsstring) (payload : Payload)
    (fields : list Field) : list Field :=
  match commits payload with
  | Some cs =>
      if streq eventName (str "push") && (0 <? List.length cs)%nat
      then if truthy (Str (commitMessages cs))
           then push fields
                  {| name := Lit.clipboard ++ str " Recent Commits";
                     value := commitMessages cs;
                     inline := false |}
           else fields
      else fields
  | None => fields
  end.

(** [if (eventName === 'release' && payload.release) {...}]. *)
Definition pushRelease (eventName : jsstring) (payload : Payload)
    (fields : list Field) : list Field :=
  match release payload with
  | Some release =>
      if streq eventName (str "release")
      then push fields
             {| name := Lit.rocket ++ str " Release";
                value := str "[" ++ toString (release_tag_name release)
                         ++ str " - " ++ toString (release_name release)
                         ++ str "](" ++ toString (release_html_url release)
                         ++ str ")";
                inline := false |}
      else fields
  | None => fields
  end.

(** [if (eventName === 'issues' && payload.issue) {...}]. *)
Definition pushIssue (eventName : jsstring) (payload : Payload)
    (fields : list Field) : list Field :=
  match issue payload with
  | Some issue =>
      if streq eventName (str "issues")
      then push fields
             {| name := Lit.bug ++ str " Issue";
                value := str "[#" ++ toString (issue_number issue) ++ str " - "
                         ++ toString (issue_title issue) ++ str "]("
                         ++ toString (issue_html_url issue) ++ str ")";
                inline := false |}
      else fields
  | None => fields
  end.

(** [if (runId && repoUrl) { const runUrl = ...; fields.push(...) }]. *)
Definition pushWorkflowRun (runId : prim) (repoUrl : jsstring)
    (fields : list Field) : list Field :=
  if truthy runId && truthy (Str repoUrl)
  then let runUrl := repoUrl ++ str "/actions/runs/" ++ toString runId in
       push fields
         {| name := Lit.link ++ str " Workflow Run";
            value := str "[View Details](" ++ runUrl ++ str ")";
            inline := false |}
  else fields.

(** [const repoUrl = repository?.html_url || '']. *)
Definition repoUrl (payload : Payload) : jsstring :=
  orElse (match repository payload with
          | Some r => repo_html_url r
          | None => None
          end) [].

(** [const repoName = repository?.full_name || 'Unknown Repository']. *)
Definition repoName (payload : Payload) : jsstring :=
  orElse (match repository payload with
          | Some r => repo_full_name r
          | None => None
          end) (str "Unknown Repository").

(** The body of [if (includeDetails) { ... }]. *)
Definition pushDetails (context : Context) (fields : list Field) : list Field :=
  let eventName := eventName context in
  let payload := payload context in
  let repoUrl := repoUrl payload in
  let repoName := repoName payload in
  let actorName := orElse (actor context) (str "Unknown") in
  let refName := orElse (ref context) (str "Unknown") in
  let commitSha := orElse (sha context) (str "Unknown") in
  let fields := pushRepository repoName repoUrl fields in
  let fields :=
    push fields
      {| name := Lit.shuffle ++ str " Event"; value := eventName; inline := true |} in
  let fields :=
    push fields
      {| name := Lit.bust ++ str " Actor"; value := actorName; inline := true |} in
  let fields :=
    push fields
      {| name := Lit.herb ++ str " Ref"; value := displayRef refName;
         inline := true |} in
  let fields :=
    push fields
      {| name := Lit.numbers ++ str " Run Number";
         value := str "#" ++ toString (if truthy (runNumber context)
                                       then runNumber context
                                       else Str (str "N/A"));
         inline := true |} in
  let fields := pushCommit commitSha repoUrl fields in
  (* Add event-specific information *)
  let fields := pushPullRequest eventName payload fields in
  let fields := pushRecentCommits eventName payload fields in
  let fields := pushRelease eventName payload fields in
  let fields := pushIssue eventName payload fields in
  fields.

(** The callback of [fields.map] in the truncation pass. *)
Definition validateField (field : Field) : Field :=
  {| name := substring0 256 (name field);
     value := substring0 1024 (value field);
     inline := inline field |}.

(* ================================================================= *)
(** ** getStatusStyling and buildEmbed *)
(* ================================================================= *)

Section Builder.

(** [String.prototype.toLowerCase], the engine's Unicode lower-casing.
    Nothing is assumed about it, so every result below holds for the
    real one. *)
Variable toLowerCase : jsstring -> jsstring.

(** [v.toLowerCase()] for a value read from a lookup: a TypeError unless
    [v] is a string. *)
Definition callToLowerCase (v : prim) : completion jsstring :=
  match v with
  | Str s => Normal (toLowerCase s)
  | _ => Throw TypeError
  end.

Definition getStatusStyling (status : jsstring) : property StatusStyle :=
  getOr styling (toLowerCase status) styling_success.

(** [now] is the text [new Date().toISOString()] yields at the call. *)
Definition buildEmbed (context : Context) (jobStatus : jsstring)
    (customTitle customDescription customColor : option jsstring)
    (includeDetails : bool) (now : jsstring) : completion Embed :=
  let eventName := eventName context in
  let payload := payload context in
  let repoUrl := repoUrl payload in
  let workflowName := orElse (workflow context) (str "GitHub Actions") in
  let eventMeta := getEventMetadata eventName payload in
  let statusStyle := getStatusStyling jobStatus in
  let notSuccess := negb (streq (toLowerCase jobStatus) (str "success")) in
  (* Determine color: custom > status-based > event-based *)
  let color :=
    if truthy (ofString customColor)
    then Num (parseInt16 (orElse customColor []))
    else if notSuccess
    then field (fun s => Num (Int (style_color s))) statusStyle
    else field (fun m => Num (Int (meta_color m))) eventMeta in
  (* Build title *)
  let title :=
    orElse customTitle
      (if notSuccess
       then toString (field (fun s => Str (style_emoji s)) statusStyle) ++ str " "
            ++ toString (field (fun m => Str (meta_emoji m)) eventMeta) ++ str " "
            ++ toString (field (fun m => Str (meta_title m)) eventMeta) ++ str " "
            ++ toString (field (fun s => Str (style_label s)) statusStyle)
       else toString (field (fun m => Str (meta_emoji m)) eventMeta) ++ str " "
            ++ toString (field (fun m => Str (meta_title m)) eventMeta)) in
  (* Build description *)
  bind
    (if truthy (ofString customDescription)
     then Normal (orElse customDescription [])
     else if notSuccess
     then bind (callToLowerCase (field (fun s => Str (style_label s)) statusStyle))
            (fun label =>
               Normal (str "**" ++ workflowName ++ str "** workflow " ++ label
                       ++ str " " ++ Lit.bullet ++ str " "
                       ++ toString (field (fun m => Str (meta_description m)) eventMeta)))
     else Normal (str "**" ++ workflowName ++ str "** " ++ Lit.bullet ++ str " "
                  ++ toString (field (fun m => Str (meta_description m)) eventMeta)))
    (fun description =>
  (* Build fields *)
  let fields : list Field := [] in
  let fields := if includeDetails then pushDetails context fields else fields in
  (* Add workflow run link *)
  let fields := pushWorkflowRun (runId context) repoUrl fields in
  (* Validate and truncate fields to Discord limits *)
  let validatedFields := map validateField fields in
  Normal
    {| title := substring0 256 title;
       description := substring0 4096 description;
       color := color;
       fields := validatedFields;
       timestamp := now;
       footer_text := substring0 2048 (str "GitHub Actions " ++ Lit.bullet ++ str " "
                                       ++ workflowName) |}).

(** *** Reading the result *)

(** The one way [buildEmbed] does not return: the lower-cased status
    names a member of [Object.prototype], so [statusStyle.label] is
    [undefined], and the generated description calls [toLowerCase] on it. *)
Definition raisesTypeError (jobStatus : jsstring)
    (customDescription : option jsstring) : bool :=
  negb (truthy (ofString customDescription))
  && existsb (streq (toLowerCase jobStatus)) objectPrototypeKeys.

End Builder.

(** [r] is the TypeError when [raises] holds, and otherwise an embed that
    satisfies [P]. *)
Definition yields (r : completion Embed) (raises : bool) (P : Embed -> Prop)
  : Prop :=
  if raises then r = Throw TypeError else exists e, r = Normal e /\ P e.

(** The embed [r] holds, if any. *)
Definition built (r : completion Embed) : option Embed :=
  match r with
  | Normal e => Some e
  | Throw _ => None
  end.


(** The names of the fields the details section can push, in the
    order of the source. *)
Definition detailNames : list jsstring :=
  [ Lit.package ++ str " Repository";
    Lit.shuffle ++ str " Event";
    Lit.bust ++ str " Actor";
    Lit.herb ++ str " Ref";
    Lit.numbers ++ str " Run Number";
    Lit.memo ++ str " Commit";
    Lit.link ++ str " Pull Request";
    Lit.clipboard ++ str " Recent Commits";
    Lit.rocket ++ str " Release";
    Lit.bug ++ str " Issue" ].

(** [context] with its [sha] replaced. *)
Definition withSha (s : option jsstring) (context : Context) : Context :=
  {| eventName := eventName context;
     payload := payload context;
     workflow := workflow context;
     runNumber := runNumber context;
     runId := runId context;
     actor := actor context;
     ref := ref context;
     sha := s |}.

(** The field that links to the workflow run, as pushed. *)
Definition workflowRunField (context : Context) : Field :=
  {| name := Lit.link ++ str " Workflow Run";
     value := str "[View Details]("
              ++ (repoUrl (payload context) ++ str "/actions/runs/"
                  ++ toString (runId context))
              ++ str ")";
     inline := false |}.

(* ================================================================= *)
(** ** sendDiscordMessage: settling the promise *)
(* ================================================================= *)

Module Delivery.

(** [new Error(message)]. *)
Inductive error := Error (message : jsstring).

(** How the promise returned by [sendDiscordMessage] is settled:
    [resolve()] carries no value, [reject(e)] carries the error. *)
Inductive settlement :=
| Resolved
| Rejected (e : error).

(** The request itself (URL, headers, body) has no part in how the
    promise is settled once it is written, and is left out.

    What the request emits once it is written: the chunks of the
    response body (each by the text [+=] appends), the end of the
    response, or a transport error on the request. *)
Inductive event :=
| ResData (chunk : jsstring)
| ResEnd
| ReqError (e : error).

(** The variables the handlers share: the closure's [responseData] and
    the state of the promise ([None] while it is pending). *)
Record state := {
  responseData : jsstring;
  promise : option settlement
}.

Definition initial : state := {| responseData := []; promise := None |}.

(** [resolve] and [reject] act on a pending promise only. *)
Definition settle (st : state) (s : settlement) : state :=
  match promise st with
  | None => {| responseData := responseData st; promise := Some s |}
  | Some _ => st
  end.

(** The handlers registered on the response and the request;
    [statusCode] is [res.statusCode]. *)
Definition handle (statusCode : Z) (st : state) (ev : event) : state :=
  match ev with
  | ResData chunk =>
      {| responseData := responseData st ++ chunk; promise := promise st |}
  | ResEnd =>
      if ((200 <=? statusCode) && (statusCode <? 300))%Z
      then settle st Resolved
      else settle st
             (Rejected
                (Error (str "Discord webhook returned status "
                        ++ toString (Num (Int statusCode)) ++ str ": "
                        ++ responseData st)))
  | ReqError e => settle st (Rejected e)
  end.

(** The promise after the request has emitted [events]. *)
Definition sendDiscordMessage (statusCode : Z) (events : list event)
  : option settlement :=
  promise (fold_left (handle statusCode) events initial).

(** A delivery that receives a response: its body in chunks, then the end. *)
Definition response (chunks : list jsstring) : list event :=
  map ResData chunks ++ [ResEnd].

End Delivery.

(* ================================================================= *)
(** ** Sample inputs *)
(* ================================================================= *)

Module Sample.

Definition octo : Repository :=
  {| repo_full_name := Some (str "octo/site");
     repo_html_url := Some (str "https://github.com/octo/site") |}.

(** A payload with the repository and nothing else. *)
Definition bare : Payload :=
  {| repository := Some octo; action := Undefined; review_state := Undefined;
     ref_type := Undefined; deployment_status_state := Undefined;
     pull_request := None; commits := None; release := None; issue := None |}.

(** A push of the commits [cs] to [ref]. *)
Definition pushOf (ref : jsstring) (cs : list Commit) : Context :=
  {| eventName := str "push";
     payload :=
       {| repository := Some octo; action := Undefined;
          review_state := Undefined; ref_type := Undefined;
          deployment_status_state := Undefined; pull_request := None;
          commits := Some cs; release := None; issue := None |};
     workflow := Some (str "CI");
     runNumber := Num (Int 7);
     runId := Num (Int 4242);
     actor := Some (str "octocat");
     ref := Some ref;
     sha := Some (str "0123456789abcdef0123456789abcdef01234567") |}.

Definition commit (m : string) : Commit := {| message := Some (str m) |}.

(** Five commits; the second has a body under its first line. *)
Definition five : list Commit :=
  [ commit "one";
    {| message := Some (str "two" ++ Lit.newline ++ str "with a body") |};
    commit "three"; commit "four"; commit "five" ].

Definition main : jsstring := str "refs/heads/main".

(** A release event on [payload], run [runId]. *)
Definition releaseOf (payload : Payload) (runId : prim) : Context :=
  {| eventName := str "release";
     payload := payload;
     workflow := Some (str "CI");
     runNumber := Num (Int 7);
     runId := runId;
     actor := Some (str "octocat");
     ref := Some (str "refs/tags/v2.0");
     sha := Some (str "0123456789abcdef0123456789abcdef01234567") |}.

(** The payload of the release "Big Release". *)
Definition bigRelease : Payload :=
  {| repository := Some octo; action := Str (str "published");
     review_state := Undefined; ref_type := Undefined;
     deployment_status_state := Undefined; pull_request := None;
     commits := None;
     release := Some {| release_tag_name := Str (str "v2.0");
                        release_name := Str (str "Big Release");
                        release_html_url := Str (str "https://x/rel") |};
     issue := None |}.

(** The instant of the sample runs. *)
Definition now : jsstring := str "2024-01-01T00:00:00.000Z".

End Sample.

(** The value the specification's sentence on the recent commits gives:
    a bullet and the first 100 code units of the first line of the
    message, for each of the first three commits. *)
Definition statedCommitLines (cs : list Commit) : jsstring :=
  join Lit.newline
    (map (fun c => Lit.bullet ++ str " "
                   ++ substring0 100 (firstLine (orElse (message c) [])))
         (firstn 3 cs)).

(* ================================================================= *)
(** ** The vocabulary of the further properties *)
(* ================================================================= *)

(** [sub] is [full] with some of its strings left out, the others in
    the same order. *)
Fixpoint subseq (sub full : list jsstring) : bool :=
  match sub, full with
  | [], _ => true
  | _ :: _, [] => false
  | x :: sub', y :: full' =>
      if streq x y then subseq sub' full' else subseq sub full'
  end.

(** The names a field of the embed can have, in the order of the source. *)
Definition fieldNames : list jsstring :=
  detailNames ++ [Lit.link ++ str " Workflow Run"].

(** A text of hexadecimal digits only. *)
Definition allHex (s : jsstring) : Prop :=
  Forall (fun c => hexDigit c <> None) s.

(** The event kinds the table knows. *)
Definition supportedEvents : list jsstring :=
  map str ["push"; "pull_request"; "pull_request_review"; "release"; "issues";
           "issue_comment"; "workflow_dispatch"; "schedule"; "create";
           "delete"; "deployment"; "deployment_status"; "workflow_run"]%string.

(* ================================================================= *)
(** ** JSON.stringify and the request of sendDiscordMessage *)
(* ================================================================= *)

Module Json.

(** The values [JSON.stringify] meets in the payload. *)
#[warning="-register-all"]
Inductive json :=
| JUndefined
| JNull
| JBool (b : bool)
| JNumber (n : jsnumber)
| JString (s : jsstring)
| JArray (items : list json)
| JObject (properties : list (jsstring * json)).

Definition ofPrim (v : prim) : json :=
  match v with
  | Undefined => JUndefined
  | Null => JNull
  | Boolean b => JBool b
  | Num n => JNumber n
  | Str s => JString s
  end.

Definition isHighSurrogate (c : char16) : bool :=
  ((0xD800 <=? c) && (c <=? 0xDBFF))%N.
Definition isLowSurrogate (c : char16) : bool :=
  ((0xDC00 <=? c) && (c <=? 0xDFFF))%N.

(** A hexadecimal digit in lower case. *)
Definition hexChar (d : N) : char16 :=
  if (d <? 10)%N then (48 + d)%N else (87 + d)%N.

(** UnicodeEscape: a backslash, [u] and four hexadecimal digits. *)
Definition unicodeEscape (c : char16) : jsstring :=
  [92; 117; hexChar (N.land (N.shiftr c 12) 15);
   hexChar (N.land (N.shiftr c 8) 15); hexChar (N.land (N.shiftr c 4) 15);
   hexChar (N.land c 15)]%N.

(** What QuoteJSONString writes for a code unit that is not the first
    half of a pair. *)
Definition escapeUnit (c : char16) : jsstring :=
  if (c =? 8)%N then [92; 98]%N
  else if (c =? 9)%N then [92; 116]%N
  else if (c =? 10)%N then [92; 110]%N
  else if (c =? 12)%N then [92; 102]%N
  else if (c =? 13)%N then [92; 114]%N
  else if (c =? 34)%N then [92; 34]%N
  else if (c =? 92)%N then [92; 92]%N
  else if (c <? 32)%N || isHighSurrogate c || isLowSurrogate c
  then unicodeEscape c
  else [c].

(** The text of a string between its quotes: a surrogate pair is kept,
    a surrogate on its own is escaped. *)
Fixpoint quoteChars (s : jsstring) : jsstring :=
  match s with
  | [] => []
  | c :: rest =>
      if isHighSurrogate c
      then match rest with
           | c' :: rest' =>
               if isLowSurrogate c' then c :: c' :: quoteChars rest'
               else unicodeEscape c ++ quoteChars rest
           | [] => unicodeEscape c
           end
      else escapeUnit c ++ quoteChars rest
  end.

(** QuoteJSONString. *)
Definition quote (s : jsstring) : jsstring := [34%N] ++ quoteChars s ++ [34%N].

(** The brackets around the parts of an array or an object: nothing
    between them when there is no part, the parts on lines of their own
    when there is a gap. *)
Definition wrap (opening closing gap indent : jsstring)
    (partial : list jsstring) : jsstring :=
  match partial with
  | [] => opening ++ closing
  | _ :: _ =>
      if streq gap []
      then opening ++ join (str ",") partial ++ closing
      else opening ++ Lit.newline ++ (indent ++ gap)
           ++ join (str "," ++ Lit.newline ++ (indent ++ gap)) partial
           ++ Lit.newline ++ indent ++ closing
  end.

Section Stringify.

(** Number::toString for an integer beyond 2^53, where the Number is the
    nearest double and the engine chooses its digits ("null" for one
    beyond the doubles, which is Infinity). *)
Variable largeNumberText : Z -> jsstring.

Definition numberText (n : jsnumber) : jsstring :=
  match n with
  | NaN => str "null"
  | Int z => if (Z.abs z <? 2 ^ 53)%Z then toString (Num (Int z))
             else largeNumberText z
  | Infinity _ => str "null"
  end.

(** SerializeJSONProperty with the gap [gap] at the indentation
    [indent]; [None] is [undefined]. *)
Fixpoint serialize (gap indent : jsstring) (v : json) : option jsstring :=
  match v with
  | JUndefined => None
  | JNull => Some (str "null")
  | JBool true => Some (str "true")
  | JBool false => Some (str "false")
  | JNumber n => Some (numberText n)
  | JString s => Some (quote s)
  | JArray items =>
      Some (wrap (str "[") (str "]") gap indent
              (map (fun item =>
                      match serialize gap (indent ++ gap) item with
                      | Some text => text
                      | None => str "null"
                      end) items))
  | JObject properties =>
      Some (wrap (str "{") (str "}") gap indent
              (flat_map
                 (fun property =>
                    match serialize gap (indent ++ gap) (snd property) with
                    | Some text =>
                        [quote (fst property) ++ str ":"
                         ++ (if streq gap [] then [] else str " ") ++ text]
                    | None => []
                    end) properties))
  end.

(** [JSON.stringify(value)] and [JSON.stringify(value, null, 2)]. *)
Definition stringify (v : json) : option jsstring := serialize [] [] v.
Definition stringify2 (v : json) : option jsstring := serialize (str "  ") [] v.

End Stringify.

(** A field, an embed and the message [{ embeds: [embed] }] as the
    objects the source builds. *)
Definition ofField (f : Field) : json :=
  JObject [ (str "name", JString (name f));
            (str "value", JString (value f));
            (str "inline", JBool (inline f)) ].

Definition ofEmbed (e : Embed) : json :=
  JObject [ (str "title", JString (title e));
            (str "description", JString (description e));
            (str "color", ofPrim (color e));
            (str "fields", JArray (map ofField (fields e)));
            (str "timestamp", JString (timestamp e));
            (str "footer", JObject [ (str "text", JString (footer_text e)) ]) ].

Definition ofMessage (embed : Embed) : json :=
  JObject [ (str "embeds", JArray [ofEmbed embed]) ].

(** [Buffer.from(s, 'utf8')]: the bytes of the UTF-8 encoding, with
    U+FFFD for a surrogate on its own. *)
Definition utf8Pair (hi lo : char16) : list N :=
  let cp := (0x10000 + N.shiftl (hi - 0xD800) 10 + (lo - 0xDC00))%N in
  [ (0xF0 + N.shiftr cp 18)%N;
    (0x80 + N.land (N.shiftr cp 12) 0x3F)%N;
    (0x80 + N.land (N.shiftr cp 6) 0x3F)%N;
    (0x80 + N.land cp 0x3F)%N ].

Definition utf8Unit (c : char16) : list N :=
  if (c <? 0x80)%N then [c]
  else if (c <? 0x800)%N
  then [ (0xC0 + N.shiftr c 6)%N; (0x80 + N.land c 0x3F)%N ]
  else if isHighSurrogate c || isLowSurrogate c
  then [0xEF; 0xBF; 0xBD]%N
  else [ (0xE0 + N.shiftr c 12)%N;
         (0x80 + N.land (N.shiftr c 6) 0x3F)%N;
         (0x80 + N.land c 0x3F)%N ].

Fixpoint utf8 (s : jsstring) : list N :=
  match s with
  | [] => []
  | c :: rest =>
      if isHighSurrogate c
      then match rest with
           | c' :: rest' =>
               if isLowSurrogate c' then utf8Pair c c' ++ utf8 rest'
               else utf8Unit c ++ utf8 rest
           | [] => utf8Unit c
           end
      else utf8Unit c ++ utf8 rest
  end.

(** The parts of [new URL(webhookUrl)] the request reads. *)
Record URL := {
  hostname : jsstring;
  port : jsstring;
  pathname : jsstring;
  search : jsstring
}.

(** The [options] of [https.request] with their headers, and the bytes
    [req.write(data)] sends. *)
Record request := {
  req_hostname : jsstring;
  req_port : prim;
  req_path : jsstring;
  req_method : jsstring;
  contentType : jsstring;
  contentLength : nat;
  body : list N
}.

(** The request [sendDiscordMessage] makes for the text [data] of the
    payload. *)
Definition requestOf (url : URL) (data : jsstring) : request :=
  let dataBuffer := utf8 data in
  {| req_hostname := hostname url;
     req_port := if truthy (Str (port url)) then Str (port url)
                 else Num (Int 443);
     req_path := pathname url ++ search url;
     req_method := str "POST";
     contentType := str "application/json";
     contentLength := List.length dataBuffer;
     body := utf8 data |}.

(** The header of the older variant of the file
    ([src/unnamed/part_001]): ['Content-Length': data.length], the number
    of code units of the text. *)
Definition legacyContentLength (data : jsstring) : nat := List.length data.

(** A member of an object in compact form: ["key":text]. *)
Definition member (key : string) (text : jsstring) : jsstring :=
  quote (str key) ++ str ":" ++ text.

(** The compact text of a field and of a list of fields. *)
Definition fieldText (f : Field) : jsstring :=
  str "{"
  ++ join (str ",")
       [ member "name" (quote (name f));
         member "value" (quote (value f));
         member "inline" (if inline f then str "true" else str "false") ]
  ++ str "}".

Definition fieldsText (fields : list Field) : jsstring :=
  match fields with
  | [] => str "[]"
  | _ :: _ => str "[" ++ join (str ",") (map fieldText fields) ++ str "]"
  end.

(** A code unit that [quote] writes as it is. *)
Definition plain (c : char16) : Prop :=
  (32 <= c)%N /\ c <> 34%N /\ c <> 92%N
  /\ isHighSurrogate c = false /\ isLowSurrogate c = false.

(** The text of the message [{ embeds: [e] }], member by member. *)
Definition messageText (largeNumberText : Z -> jsstring) (e : Embed)
  : jsstring :=
  str "{"
          ++ member "embeds"
               (str "["
                ++ (str "{"
                    ++ join (str ",")
                         ([ member "title" (quote (title e));
                            member "description" (quote (description e)) ]
                          ++ match color e with
                             | Undefined => []
                             | Null => [member "color" (str "null")]
                             | Boolean b =>
                                 [member "color"
                                    (if b then str "true" else str "false")]
                             | Num NaN => [member "color" (str "null")]
                             | Num (Infinity _) =>
                                 [member "color" (str "null")]
                             | Num (Int z) =>
                                 [member "color"
                                    (if (Z.abs z <? 2 ^ 53)%Z
                                     then toString (Num (Int z))
                                     else largeNumberText z)]
                             | Str s => [member "color" (quote s)]
                             end
                          ++ [ member "fields" (fieldsText (fields e));
                               member "timestamp" (quote (timestamp e));
                               member "footer"
                                 (str "{"
                                  ++ member "text" (quote (footer_text e))
                                  ++ str "}") ])
                    ++ str "}")
                ++ str "]")
          ++ str "}".

End Json.

(* ================================================================= *)
(** ** run: the action from its inputs to its calls *)
(* ================================================================= *)

Module Action.
Import Json.

(** What [run] does to the outside: the lines it logs with [core.info],
    the failure it sets with [core.setFailed], and the request it hands
    to [https.request]. *)
Inductive call :=
| Info (message : jsstring)
| SetFailed (message : jsstring)
| HttpsRequest (r : request).

(** How a step inside the [try] block ends: with a value, with an error
    thrown or a promise rejected (of which [run] reads the message), or
    waiting on a promise that is never settled. *)
Inductive outcome (A : Type) :=
| Returned (a : A)
| Raised (message : jsstring)
| Pending.
Arguments Returned {A} a.
Arguments Raised {A} message.
Arguments Pending {A}.

(** What a call of a function of the toolkit or of the engine gives:
    its value, or the error it throws. *)
Inductive result (A : Type) :=
| Value (a : A)
| Threw (message : jsstring).
Arguments Value {A} a.
Arguments Threw {A} message.

(** A step: the calls it makes, and how it ends. *)
Definition action (A : Type) : Type := list call * outcome A.

Definition ret {A} (a : A) : action A := ([], Returned a).
Definition tell (c : call) : action unit := ([c], Returned tt).
Definition lift {A} (o : outcome A) : action A := ([], o).
Definition call_ {A} (r : result A) : action A :=
  match r with
  | Value a => ([], Returned a)
  | Threw message => ([], Raised message)
  end.

Definition andThen {A B} (step : action A) (k : A -> action B) : action B :=
  match step with
  | (calls, Returned a) => let (calls', o) := k a in (calls ++ calls', o)
  | (calls, Raised message) => (calls, Raised message)
  | (calls, Pending) => (calls, Pending)
  end.

(** [try { block } catch (error) { handler(error.message) }]. *)
Definition tryCatch (block : action unit) (handler : jsstring -> action unit)
  : action unit :=
  match block with
  | (calls, Raised message) =>
      let (calls', o) := handler message in (calls ++ calls', o)
  | done => done
  end.

Notation "x <- step ;; k" := (andThen step (fun x => k))
  (at level 61, step at next level, right associativity).
Notation "step ;;; k" := (andThen step (fun _ => k))
  (at level 61, right associativity).

(** What the request meets: a response with its status, the chunks of
    its body and its end; an error of the transport; or a response that
    begins and of which the end never comes (it stalls, or it is aborted:
    the source listens to the [data] and [end] of the response and to
    the [error] of the request, and to nothing else). *)
Inductive exchange :=
| Responds (statusCode : Z) (chunks : list jsstring)
| Fails (e : Delivery.error)
| Stalls (statusCode : Z) (chunks : list jsstring).

(** The promise of [sendDiscordMessage] after the exchange (without a
    response no status is read). *)
Definition settlementOf (net : exchange) : option Delivery.settlement :=
  match net with
  | Responds statusCode chunks =>
      Delivery.sendDiscordMessage statusCode (Delivery.response chunks)
  | Fails e => Delivery.sendDiscordMessage 0 [Delivery.ReqError e]
  | Stalls statusCode chunks =>
      Delivery.sendDiscordMessage statusCode (map Delivery.ResData chunks)
  end.

Section Run.

Variable toLowerCase : jsstring -> jsstring.
Variable largeNumberText : Z -> jsstring.

(** [core.getInput(name, { required })] of the toolkit: the value of the
    input, or the error it throws. *)
Variable getInput : jsstring -> bool -> result jsstring.

(** [new URL(webhookUrl)]: the parts of the URL, or the error thrown for
    a text that is no URL. *)
Variable newURL : jsstring -> result URL.

(** The message of the TypeError the engine raises for a method called
    on [undefined]. *)
Variable typeErrorMessage : jsstring.

(** [await sendDiscordMessage(webhookUrl, payload)] for the payload
    [{ embeds: [embed] }]. *)
Definition sendDiscordMessage (webhookUrl : jsstring) (embed : Embed)
    (net : exchange) : action unit :=
  url <- call_ (newURL webhookUrl) ;;
  data <- call_ (match stringify largeNumberText (ofMessage embed) with
                 | Some data => Value data
                 | None => Threw typeErrorMessage
                 end) ;;
  tell (HttpsRequest (requestOf url data)) ;;;
  match net, settlementOf net with
  | Responds statusCode _, Some Delivery.Resolved =>
      tell (Info (str "Discord notification sent successfully. Status: "
                  ++ toString (Num (Int statusCode))))
  | Fails _, Some Delivery.Resolved => ret tt
  | Stalls _ _, Some Delivery.Resolved => ret tt
  | _, Some (Delivery.Rejected (Delivery.Error message)) =>
      lift (Raised message)
  | _, None => lift Pending
  end.

Definition run (context : Context) (now : jsstring) (net : exchange)
  : action unit :=
  tryCatch
    ((* Get inputs *)
     webhookUrl <- call_ (getInput (str "webhook-url") true) ;;
     jobStatusInput <- call_ (getInput (str "job-status") false) ;;
     let jobStatus := orElse (Some jobStatusInput) (str "success") in
     customTitle <- call_ (getInput (str "title") false) ;;
     customDescription <- call_ (getInput (str "description") false) ;;
     customColor <- call_ (getInput (str "color") false) ;;
     includeDetailsInput <- call_ (getInput (str "include-details") false) ;;
     let includeDetails := streq includeDetailsInput (str "true") in
     tell (Info (str "Starting Discord notification...")) ;;;
     tell (Info (str "Event: " ++ eventName context)) ;;;
     tell (Info (str "Job Status: " ++ jobStatus)) ;;;
     (* Build embed *)
     embed <- call_ (match buildEmbed toLowerCase context jobStatus
                             (Some customTitle) (Some customDescription)
                             (Some customColor) includeDetails now with
                     | Normal embed => Value embed
                     | Throw TypeError => Threw typeErrorMessage
                     end) ;;
     (* Debug: Log the payload *)
     tell (Info (str "Payload to be sent:")) ;;;
     tell (Info (toString
                   (ofString (stringify2 largeNumberText (ofMessage embed))))) ;;;
     (* Send to Discord *)
     sendDiscordMessage webhookUrl embed net ;;;
     tell (Info (str "Discord notification completed successfully!")))
    (fun message => tell (SetFailed (str "Action failed: " ++ message))).

(** The inputs are read, the embed [embed] is built from them and the
    webhook URL is the URL [url]. *)
Definition prepared (context : Context) (now : jsstring) (embed : Embed)
    (url : URL) : Prop :=
  exists webhookUrl jobStatus title description color details,
    getInput (str "webhook-url") true = Value webhookUrl
    /\ getInput (str "job-status") false = Value jobStatus
    /\ getInput (str "title") false = Value title
    /\ getInput (str "description") false = Value description
    /\ getInput (str "color") false = Value color
    /\ getInput (str "include-details") false = Value details
    /\ buildEmbed toLowerCase context
         (if streq jobStatus [] then str "success" else jobStatus)
         (Some title) (Some description) (Some color)
         (streq details (str "true")) now = Normal embed
    /\ newURL webhookUrl = Value url.

(** The notification is delivered: the inputs are read, the embed is
    built, the URL is a URL, and the webhook answers with a status in
    [200, 300). *)
Definition delivered (context : Context) (now : jsstring) (net : exchange)
  : Prop :=
  exists embed url statusCode chunks,
    prepared context now embed url
    /\ net = Responds statusCode chunks
    /\ (200 <= statusCode < 300)%Z.

(** The request is made, and the end of the response never comes. *)
Definition stalled (context : Context) (now : jsstring) (net : exchange)
  : Prop :=
  exists embed url statusCode chunks,
    prepared context now embed url
    /\ net = Stalls statusCode chunks.

End Run.

(** The inputs [run] reads, in the order it reads them, each with
    whether it is required. *)
Definition inputNames : list (jsstring * bool) :=
  [ (str "webhook-url", true); (str "job-status", false);
    (str "title", false); (str "description", false);
    (str "color", false); (str "include-details", false) ].

(** The last line of a run that went well. *)
Definition completed : call :=
  Info (str "Discord notification completed successfully!").

(** The requests among the calls. *)
Definition requests (calls : list call) : list request :=
  flat_map (fun c => match c with HttpsRequest r => [r] | _ => [] end) calls.

(** The failures among the calls. *)
Definition failures (calls : list call) : list jsstring :=
  flat_map (fun c => match c with SetFailed m => [m] | _ => [] end) calls.

(** A line of the log other than the closing one, or the request. *)
Definition ordinary (c : call) : Prop :=
  c <> completed /\ forall message, c <> SetFailed message.

End Action.

(* ================================================================= *)
Module ActionSample.
Import Json Action.

(** The inputs of a workflow step that gives the webhook URL, asks for
    no details and leaves the rest empty. *)
Definition inputs (name : jsstring) (required : bool) : result jsstring :=
  if streq name (str "webhook-url")
  then Value (str "https://discord.com/api/webhooks/1/x")
  else if streq name (str "include-details") then Value (str "false")
  else Value [].

(** The inputs of a step that gives no webhook URL: [core.getInput]
    throws for the required input. *)
Definition missing (name : jsstring) (required : bool) : result jsstring :=
  if required && streq name (str "webhook-url")
  then Threw (str "Input required and not supplied: " ++ name)
  else Value [].

(** The parts of the webhook URL of [inputs]. *)
Definition hook : URL :=
  {| hostname := str "discord.com"; port := [];
     pathname := str "/api/webhooks/1/x"; search := [] |}.

End ActionSample.

(* ================================================================= *)
(** ** buildEmbed, statement by statement *)
(* ================================================================= *)

(** [buildEmbed] once more, this time as the statements of the source
    acting on a store, to tell what it reads, what it writes and what
    it does to the outside. *)
Module Effects.

(** What a statement does to the outside. *)
Inductive effect :=
| ReadClock                   (* [new Date()] *)
| Called (c : Action.call).   (* a call of the toolkit or of [https] *)

(** The store of a call of [buildEmbed]: the objects its argument
    [context] refers to (the context, its payload and all the payload
    holds, the array of commits included), the array its local [fields]
    refers to, the instant as [new Date().toISOString()] writes it, and
    what has been done to the outside so far. *)
Record store := {
  input : Context;
  array : list Field;
  clock : jsstring;
  trace : list effect
}.

(** A statement: from a store to a value or an exception, and a store. *)
Definition step (A : Type) : Type := store -> completion A * store.

Definition ret {A} (a : A) : step A := fun s => (Normal a, s).

Definition andThen {A B} (first : step A) (next : A -> step B) : step B :=
  fun s =>
    match first s with
    | (Normal a, s') => next a s'
    | (Throw e, s') => (Throw e, s')
    end.

Notation "x <- first ;; next" := (andThen first (fun x => next))
  (at level 61, first at next level, right associativity).
Notation "first ;;; next" := (andThen first (fun _ => next))
  (at level 61, right associativity).

(** An expression that returns or throws, and touches nothing. *)
Definition evaluate {A} (c : completion A) : step A := fun s => (c, s).

(** Reading a property of the objects [context] refers to. *)
Definition readContext : step Context := fun s => (Normal (input s), s).

(** An assignment to a property of those objects, or a method that
    changes one of them in place ([buildEmbed] has no such statement). *)
Definition assign (changed : Context) : step unit :=
  fun s => (Normal tt, {| input := changed; array := array s;
                          clock := clock s; trace := trace s |}).

(** A call of the toolkit or of [https] ([buildEmbed] has none). *)
Definition perform (c : Action.call) : step unit :=
  fun s => (Normal tt, {| input := input s; array := array s;
                          clock := clock s;
                          trace := trace s ++ [Called c] |}).

(** [const fields = []]. *)
Definition newArray : step unit :=
  fun s => (Normal tt, {| input := input s; array := [];
                          clock := clock s; trace := trace s |}).

(** [fields.push(f)]: the array is changed in place. *)
Definition push (f : Field) : step unit :=
  fun s => (Normal tt, {| input := input s; array := array s ++ [f];
                          clock := clock s; trace := trace s |}).

(** Reading the array of [fields], as [fields.map] does. *)
Definition readArray : step (list Field) := fun s => (Normal (array s), s).

(** [new Date().toISOString()]. *)
Definition newDate : step jsstring :=
  fun s => (Normal (clock s),
            {| input := input s; array := array s; clock := clock s;
               trace := trace s ++ [ReadClock] |}).

(** [if (repoUrl) { fields.push(...) } else { fields.push(...) }]. *)
Definition pushRepository (repoName repoUrl : jsstring) : step unit :=
  if truthy (Str repoUrl)
  then push {| name := Lit.package ++ str " Repository";
               value := str "[" ++ repoName ++ str "](" ++ repoUrl ++ str ")";
               inline := true |}
  else push {| name := Lit.package ++ str " Repository";
               value := repoName;
               inline := true |}.

(** [if (commitSha !== 'Unknown' && repoUrl) {...}
     else if (commitSha !== 'Unknown') {...}]. *)
Definition pushCommit (commitSha repoUrl : jsstring) : step unit :=
  if negb (streq commitSha (str "Unknown")) && truthy (Str repoUrl)
  then push {| name := Lit.memo ++ str " Commit";
               value := str "[" ++ substring0 7 commitSha ++ str "]("
                        ++ repoUrl ++ str "/commit/" ++ commitSha ++ str ")";
               inline := true |}
  else if negb (streq commitSha (str "Unknown"))
  then push {| name := Lit.memo ++ str " Commit";
               value := substring0 7 commitSha;
               inline := true |}
  else ret tt.

(** [if (eventName === 'pull_request' && payload.pull_request) {...}]. *)
Definition pushPullRequest (eventName : jsstring) : step unit :=
  if streq eventName (str "pull_request")
  then context <- readContext ;;
       match pull_request (payload context) with
       | Some pr =>
           push {| name := Lit.link ++ str " Pull Request";
                   value := str "[#" ++ toString (pr_number pr) ++ str " - "
                            ++ toString (pr_title pr) ++ str "]("
                            ++ toString (pr_html_url pr) ++ str ")";
                   inline := false |}
       | None => ret tt
       end
  else ret tt.

(** [if (eventName === 'push' && payload.commits && payload.commits.length > 0)
     { const commitMessages = payload.commits.slice(0, 3).map(...).join('\n');
       if (commitMessages) { fields.push(...) } }]: [slice] and [map]
    each return a new array and leave the one they are called on as it
    is. *)
Definition pushRecentCommits (eventName : jsstring) : step unit :=
  if streq eventName (str "push")
  then context <- readContext ;;
       match commits (payload context) with
       | Some cs =>
           if (0 <? List.length cs)%nat
           then let sliced := firstn 3 cs in
                let mapped := map commitLine sliced in
                let commitMessages := join Lit.newline mapped in
                if truthy (Str commitMessages)
                then push {| name := Lit.clipboard ++ str " Recent Commits";
                             value := commitMessages;
                             inline := false |}
                else ret tt
           else ret tt
       | None => ret tt
       end
  else ret tt.

(** [if (eventName === 'release' && payload.release) {...}]. *)
Definition pushRelease (eventName : jsstring) : step unit :=
  if streq eventName (str "release")
  then context <- readContext ;;
       match release (payload context) with
       | Some release =>
           push {| name := Lit.rocket ++ str " Release";
                   value := str "[" ++ toString (release_tag_name release)
                            ++ str " - " ++ toString (release_name release)
                            ++ str "](" ++ toString (release_html_url release)
                            ++ str ")";
                   inline := false |}
       | None => ret tt
       end
  else ret tt.

(** [if (eventName === 'issues' && payload.issue) {...}]. *)
Definition pushIssue (eventName : jsstring) : step unit :=
  if streq eventName (str "issues")
  then context <- readContext ;;
       match issue (payload context) with
       | Some issue =>
           push {| name := Lit.bug ++ str " Issue";
                   value := str "[#" ++ toString (issue_number issue) ++ str " - "
                            ++ toString (issue_title issue) ++ str "]("
                            ++ toString (issue_html_url issue) ++ str ")";
                   inline := false |}
       | None => ret tt
       end
  else ret tt.

(** [if (runId && repoUrl) { const runUrl = ...; fields.push(...) }]. *)
Definition pushWorkflowRun (runId : prim) (repoUrl : jsstring) : step unit :=
  if truthy runId && truthy (Str repoUrl)
  then let runUrl := repoUrl ++ str "/actions/runs/" ++ toString runId in
       push {| name := Lit.link ++ str " Workflow Run";
               value := str "[View Details](" ++ runUrl ++ str ")";
               inline := false |}
  else ret tt.

(** The body of [if (includeDetails) { ... }], with the constants it
    uses. *)
Definition pushDetails (eventName repoName repoUrl actorName refName
    commitSha : jsstring) (runNumber : prim) : step unit :=
  pushRepository repoName repoUrl ;;;
  push {| name := Lit.shuffle ++ str " Event"; value := eventName;
          inline := true |} ;;;
  push {| name := Lit.bust ++ str " Actor"; value := actorName;
          inline := true |} ;;;
  push {| name := Lit.herb ++ str " Ref"; value := displayRef refName;
          inline := true |} ;;;
  push {| name := Lit.numbers ++ str " Run Number";
          value := str "#" ++ toString (if truthy runNumber then runNumber
                                        else Str (str "N/A"));
          inline := true |} ;;;
  pushCommit commitSha repoUrl ;;;
  (* Add event-specific information *)
  pushPullRequest eventName ;;;
  pushRecentCommits eventName ;;;
  pushRelease eventName ;;;
  pushIssue eventName.

Section Builder.

Variable toLowerCase : jsstring -> jsstring.

Definition buildEmbed (jobStatus : jsstring)
    (customTitle customDescription customColor : option jsstring)
    (includeDetails : bool) : step Embed :=
  (* const { eventName, payload, ... } = context, and the constants *)
  context <- readContext ;;
  let eventName := eventName context in
  let payload := payload context in
  let runNumber := runNumber context in
  let runId := runId context in
  let repoUrl := repoUrl payload in
  let repoName := repoName payload in
  let workflowName := orElse (workflow context) (str "GitHub Actions") in
  let actorName := orElse (actor context) (str "Unknown") in
  let refName := orElse (ref context) (str "Unknown") in
  let commitSha := orElse (sha context) (str "Unknown") in
  let eventMeta := getEventMetadata eventName payload in
  let statusStyle := getStatusStyling toLowerCase jobStatus in
  let notSuccess := negb (streq (toLowerCase jobStatus) (str "success")) in
  (* Determine color: custom > status-based > event-based *)
  let color :=
    if truthy (ofString customColor)
    then Num (parseInt16 (orElse customColor []))
    else if notSuccess
    then field (fun s => Num (Int (style_color s))) statusStyle
    else field (fun m => Num (Int (meta_color m))) eventMeta in
  (* Build title *)
  let title :=
    orElse customTitle
      (if notSuccess
       then toString (field (fun s => Str (style_emoji s)) statusStyle) ++ str " "
            ++ toString (field (fun m => Str (meta_emoji m)) eventMeta) ++ str " "
            ++ toString (field (fun m => Str (meta_title m)) eventMeta) ++ str " "
            ++ toString (field (fun s => Str (style_label s)) statusStyle)
       else toString (field (fun m => Str (meta_emoji m)) eventMeta) ++ str " "
            ++ toString (field (fun m => Str (meta_title m)) eventMeta)) in
  (* Build description *)
  description <-
    evaluate
      (if truthy (ofString customDescription)
       then Normal (orElse customDescription [])
       else if notSuccess
       then bind (callToLowerCase toLowerCase
                    (field (fun s => Str (style_label s)) statusStyle))
              (fun label =>
                 Normal (str "**" ++ workflowName ++ str "** workflow " ++ label
                         ++ str " " ++ Lit.bullet ++ str " "
                         ++ toString (field (fun m => Str (meta_description m))
                                        eventMeta)))
       else Normal (str "**" ++ workflowName ++ str "** " ++ Lit.bullet ++ str " "
                    ++ toString (field (fun m => Str (meta_description m))
                                   eventMeta))) ;;
  (* Build fields *)
  newArray ;;;
  (if includeDetails
   then pushDetails eventName repoName repoUrl actorName refName commitSha
          runNumber
   else ret tt) ;;;
  (* Add workflow run link *)
  pushWorkflowRun runId repoUrl ;;;
  (* Validate and truncate fields to Discord limits *)
  fields <- readArray ;;
  let validatedFields := map validateField fields in
  now <- newDate ;;
  ret {| title := substring0 256 title;
         description := substring0 4096 description;
         color := color;
         fields := validatedFields;
         timestamp := now;
         footer_text := substring0 2048 (str "GitHub Actions " ++ Lit.bullet
                                         ++ str " " ++ workflowName) |}.

End Builder.

(** The store with another array for [fields]. *)
Definition withArray (a : list Field) (s : store) : store :=
  {| input := input s; array := a; clock := clock s; trace := trace s |}.

End Effects.

(* ================================================================= *)
(** ** Properties of the built-ins *)
(* ================================================================= *)

Lemma streq_refl (a : jsstring) : streq a a = true.
Proof.
  induction a as [|x a IH]; simpl; [reflexivity|].
  now rewrite N.eqb_refl.
Qed.

Lemma streq_eq (a b : jsstring) : streq a b = true <-> a = b.
Proof.
  split; [|intros ->; apply streq_refl].
  revert b; induction a as [|x a IH]; intros [|y b]; simpl; try easy.
  rewrite andb_true_iff, N.eqb_eq. intros [-> H]. f_equal. now apply IH.
Qed.

Lemma streq_neq (a b : jsstring) : streq a b = false <-> a <> b.
Proof.
  rewrite <- streq_eq. destruct (streq a b); split; congruence.
Qed.

Lemma truthy_Str (s : jsstring) : truthy (Str s) = true <-> s <> [].
Proof.
  simpl. rewrite negb_true_iff. apply streq_neq.
Qed.

Lemma orElse_truthy (o : option jsstring) (d : jsstring) :
  truthy (ofString o) = true -> o = Some (orElse o d).
Proof.
  destruct o as [s|]; simpl; [|discriminate].
  destruct (streq s []); simpl; [discriminate|reflexivity].
Qed.

Lemma orElse_falsy (o : option jsstring) (d : jsstring) :
  truthy (ofString o) = false -> orElse o d = d.
Proof.
  destruct o as [s|]; simpl; [|reflexivity].
  destruct (streq s []); simpl; [reflexivity|discriminate].
Qed.

Lemma substring0_length (n : nat) (s : jsstring) :
  List.length (substring0 n s) <= n.
Proof. apply firstn_le_length. Qed.

Lemma substring0_short (n : nat) (s : jsstring) :
  List.length s <= n -> substring0 n s = s.
Proof. apply firstn_all2. Qed.

(* ================================================================= *)
(** ** Properties of buildEmbed *)
(* ================================================================= *)

Lemma bind_Normal_inv {A B} (c : completion A) (k : A -> completion B) (b : B) :
  bind c k = Normal b -> exists a, c = Normal a /\ k a = Normal b.
Proof. destruct c as [a|err]; simpl; [eauto | discriminate]. Qed.

Lemma Normal_inj {A} (a b : A) : Normal a = Normal b -> a = b.
Proof. now intros [= ->]. Qed.

Lemma yields_built (r : completion Embed) (raises : bool) (P : Embed -> Prop) :
  yields r raises (fun e => r = Normal e) ->
  (forall e, r = Normal e -> P e) ->
  yields r raises P.
Proof.
  unfold yields. destruct raises; [easy|].
  intros (e & He & _) HP. exists e. auto.
Qed.

(** *** The pushing blocks append to the array *)

Lemma pushRepository_app n u (l : list Field) :
  pushRepository n u l = l ++ pushRepository n u [].
Proof. unfold pushRepository, push. now destruct (truthy (Str u)). Qed.

Lemma pushCommit_app c u (l : list Field) :
  pushCommit c u l = l ++ pushCommit c u [].
Proof.
  unfold pushCommit, push.
  destruct (negb (streq c (str "Unknown"))), (truthy (Str u));
    cbn [andb app]; now rewrite ?app_nil_r.
Qed.

Lemma pushPullRequest_app ev p (l : list Field) :
  pushPullRequest ev p l = l ++ pushPullRequest ev p [].
Proof.
  unfold pushPullRequest, push.
  destruct (pull_request p); [destruct (streq ev _)|];
    cbn [app]; now rewrite ?app_nil_r.
Qed.

Lemma pushRecentCommits_app ev p (l : list Field) :
  pushRecentCommits ev p l = l ++ pushRecentCommits ev p [].
Proof.
  unfold pushRecentCommits, push.
  destruct (commits p) as [cs|];
    [destruct (streq ev _ && _); [destruct (truthy _)|]|];
    cbn [app]; now rewrite ?app_nil_r.
Qed.

Lemma pushRelease_app ev p (l : list Field) :
  pushRelease ev p l = l ++ pushRelease ev p [].
Proof.
  unfold pushRelease, push.
  destruct (release p); [destruct (streq ev _)|];
    cbn [app]; now rewrite ?app_nil_r.
Qed.

Lemma pushIssue_app ev p (l : list Field) :
  pushIssue ev p l = l ++ pushIssue ev p [].
Proof.
  unfold pushIssue, push.
  destruct (issue p); [destruct (streq ev _)|];
    cbn [app]; now rewrite ?app_nil_r.
Qed.

Lemma pushWorkflowRun_app r u (l : list Field) :
  pushWorkflowRun r u l = l ++ pushWorkflowRun r u [].
Proof.
  unfold pushWorkflowRun, push.
  destruct (truthy r && truthy (Str u)); cbn [app]; now rewrite ?app_nil_r.
Qed.

(** The details section as the blocks it runs, one after the other. *)
Lemma pushDetails_blocks (context : Context) :
  pushDetails context [] =
    pushRepository (repoName (payload context)) (repoUrl (payload context)) []
    ++ [ {| name := Lit.shuffle ++ str " Event";
            value := eventName context; inline := true |};
         {| name := Lit.bust ++ str " Actor";
            value := orElse (actor context) (str "Unknown"); inline := true |};
         {| name := Lit.herb ++ str " Ref";
            value := displayRef (orElse (ref context) (str "Unknown"));
            inline := true |};
         {| name := Lit.numbers ++ str " Run Number";
            value := str "#" ++ toString (if truthy (runNumber context)
                                          then runNumber context
                                          else Str (str "N/A"));
            inline := true |} ]
    ++ pushCommit (orElse (sha context) (str "Unknown"))
         (repoUrl (payload context)) []
    ++ pushPullRequest (eventName context) (payload context) []
    ++ pushRecentCommits (eventName context) (payload context) []
    ++ pushRelease (eventName context) (payload context) []
    ++ pushIssue (eventName context) (payload context) [].
Proof.
  unfold pushDetails; cbv zeta.
  rewrite pushIssue_app, pushRelease_app, pushRecentCommits_app,
    pushPullRequest_app, pushCommit_app.
  unfold push. rewrite <- !app_assoc. reflexivity.
Qed.

Lemma pushDetails_app (context : Context) (l : list Field) :
  pushDetails context l = l ++ pushDetails context [].
Proof.
  unfold pushDetails; cbv zeta.
  rewrite pushIssue_app, pushRelease_app, pushRecentCommits_app,
    pushPullRequest_app, pushCommit_app, pushRepository_app.
  rewrite (pushIssue_app _ _ (pushRelease _ _ _)),
    (pushRelease_app _ _ (pushRecentCommits _ _ _)),
    (pushRecentCommits_app _ _ (pushPullRequest _ _ _)),
    (pushPullRequest_app _ _ (pushCommit _ _ _)),
    (pushCommit_app _ _ (push _ _)).
  unfold push. rewrite <- !app_assoc. reflexivity.
Qed.

(** *** The names of the fields *)

Ltac name_in_list :=
  cbn [name In]; repeat (first [left; reflexivity | right]).

Ltac forall_names :=
  repeat apply Forall_cons; try apply Forall_nil; name_in_list.

Lemma pushDetails_names (context : Context) :
  Forall (fun f => In (name f) detailNames) (pushDetails context []).
Proof.
  rewrite pushDetails_blocks. unfold detailNames.
  rewrite !Forall_app. repeat split.
  - unfold pushRepository, push. destruct (truthy _);
      forall_names.
  - forall_names.
  - unfold pushCommit, push. destruct (negb _), (truthy _); cbn [andb app];
      forall_names.
  - unfold pushPullRequest, push.
    destruct (pull_request _); [destruct (streq _ _)|];
      forall_names.
  - unfold pushRecentCommits, push.
    destruct (commits _); [destruct (streq _ _ && _); [destruct (truthy _)|]|];
      forall_names.
  - unfold pushRelease, push.
    destruct (release _); [destruct (streq _ _)|];
      forall_names.
  - unfold pushIssue, push.
    destruct (issue _); [destruct (streq _ _)|];
      forall_names.
Qed.

(** None of those names is cut by the truncation pass. *)
Lemma detailNames_short :
  Forall (fun n => (List.length n <= 256)%nat) detailNames.
Proof. unfold detailNames. repeat apply Forall_cons; try apply Forall_nil; vm_compute; lia. Qed.

Lemma validateField_detail_name (f : Field) :
  In (name f) detailNames -> name (validateField f) = name f.
Proof.
  intros H. cbn [validateField name]. apply substring0_short.
  exact (proj1 (Forall_forall _ _) detailNames_short _ H).
Qed.

Lemma detailNames_not_workflowRun (n : jsstring) :
  In n detailNames -> n <> Lit.link ++ str " Workflow Run".
Proof.
  unfold detailNames; cbn [In]; intros H E; subst n.
  repeat (destruct H as [H|H]; [vm_compute in H; discriminate|]).
  exact H.
Qed.

Lemma validated_details_names (context : Context) :
  Forall (fun f => In (name f) detailNames)
         (map validateField (pushDetails context [])).
Proof.
  apply Forall_map. eapply Forall_impl; [|apply pushDetails_names].
  intros f H. now rewrite validateField_detail_name.
Qed.

(** *** Which block pushes which name *)

Lemma pushRepository_name n u :
  Forall (fun f => name f = Lit.package ++ str " Repository")
         (pushRepository n u []).
Proof.
  unfold pushRepository, push. destruct (truthy _); now repeat constructor.
Qed.

Lemma pushCommit_name c u :
  Forall (fun f => name f = Lit.memo ++ str " Commit") (pushCommit c u []).
Proof.
  unfold pushCommit, push. destruct (negb _), (truthy _); cbn [andb app];
    now repeat constructor.
Qed.

Lemma pushPullRequest_name ev p :
  Forall (fun f => name f = Lit.link ++ str " Pull Request")
         (pushPullRequest ev p []).
Proof.
  unfold pushPullRequest, push.
  destruct (pull_request _); [destruct (streq _ _)|]; now repeat constructor.
Qed.

Lemma pushRecentCommits_name ev p :
  Forall (fun f => name f = Lit.clipboard ++ str " Recent Commits")
         (pushRecentCommits ev p []).
Proof.
  unfold pushRecentCommits, push.
  destruct (commits _); [destruct (streq _ _ && _); [destruct (truthy _)|]|];
    now repeat constructor.
Qed.

Lemma pushRelease_name ev p :
  Forall (fun f => name f = Lit.rocket ++ str " Release") (pushRelease ev p []).
Proof.
  unfold pushRelease, push.
  destruct (release _); [destruct (streq _ _)|]; now repeat constructor.
Qed.

Lemma pushIssue_name ev p :
  Forall (fun f => name f = Lit.bug ++ str " Issue") (pushIssue ev p []).
Proof.
  unfold pushIssue, push.
  destruct (issue _); [destruct (streq _ _)|]; now repeat constructor.
Qed.

(** A field of a block named [n] has another name than [m], whenever
    the two literals differ. *)
Ltac other_name lemma :=
  eapply Forall_impl; [|apply lemma];
  let f := fresh "f" in
  let H := fresh "H" in
  let E := fresh "E" in
  intros f H E; rewrite H in E; vm_compute in E; discriminate.

(** The details section pushes no field named [n], if the only block
    that could push one pushes nothing. *)
Lemma pushDetails_without_commit (context : Context) :
  pushCommit (orElse (sha context) (str "Unknown")) (repoUrl (payload context)) []
    = [] ->
  Forall (fun f => name f <> Lit.memo ++ str " Commit") (pushDetails context []).
Proof.
  intros E. rewrite pushDetails_blocks, E, !Forall_app.
  repeat split; try apply Forall_nil.
  - other_name pushRepository_name.
  - repeat apply Forall_cons; try apply Forall_nil;
      cbn [name]; intros E'; vm_compute in E'; discriminate.
  - other_name pushPullRequest_name.
  - other_name pushRecentCommits_name.
  - other_name pushRelease_name.
  - other_name pushIssue_name.
Qed.

Lemma pushDetails_without_recent_commits (context : Context) :
  pushRecentCommits (eventName context) (payload context) [] = [] ->
  Forall (fun f => name f <> Lit.clipboard ++ str " Recent Commits")
         (pushDetails context []).
Proof.
  intros E. rewrite pushDetails_blocks, E, !Forall_app.
  repeat split; try apply Forall_nil.
  - other_name pushRepository_name.
  - repeat apply Forall_cons; try apply Forall_nil;
      cbn [name]; intros E'; vm_compute in E'; discriminate.
  - other_name pushCommit_name.
  - other_name pushPullRequest_name.
  - other_name pushRelease_name.
  - other_name pushIssue_name.
Qed.

(** The fields of the embed carry a detail name only if the details
    section pushed a field of that name. *)
Lemma fields_without_name (context : Context) (includeDetails : bool)
    (n : jsstring) :
  In n detailNames ->
  Forall (fun f => name f <> n) (pushDetails context []) ->
  Forall (fun f => name f <> n)
    (map validateField
       (pushWorkflowRun (runId context) (repoUrl (payload context))
          (if includeDetails then pushDetails context [] else []))).
Proof.
  intros Hn H. rewrite pushWorkflowRun_app, map_app. apply Forall_app. split.
  - destruct includeDetails; [|constructor].
    apply Forall_map. rewrite Forall_forall in *. intros f Hf.
    rewrite validateField_detail_name.
    + now apply H.
    + exact (proj1 (Forall_forall _ _) (pushDetails_names context) f Hf).
  - unfold pushWorkflowRun, push. destruct (truthy _ && truthy _);
      [|constructor].
    repeat constructor. cbn [map app validateField name]. intros E.
    apply (detailNames_not_workflowRun Hn). rewrite <- E. reflexivity.
Qed.

(** *** The lines of the recent commits *)

Lemma commitLine_length (c : Commit) : (List.length (commitLine c) <= 102)%nat.
Proof.
  unfold commitLine, substring0. cbv zeta.
  rewrite !length_app, length_firstn.
  change (List.length Lit.bullet) with 1%nat.
  change (List.length (str " ")) with 1%nat. lia.
Qed.

Lemma commitMessages_length (cs : list Commit) :
  (List.length (commitMessages cs) <= 1024)%nat.
Proof.
  unfold commitMessages.
  destruct cs as [|c1 [|c2 [|c3 cs]]]; cbn [firstn map join];
    rewrite ?length_app; cbn [List.length Lit.newline];
    try pose proof (commitLine_length c1);
    try pose proof (commitLine_length c2);
    try pose proof (commitLine_length c3); lia.
Qed.

Lemma commitMessages_truthy (cs : list Commit) :
  cs <> [] -> truthy (Str (commitMessages cs)) = true.
Proof.
  intros H. destruct cs as [|c cs]; [easy|].
  apply truthy_Str. unfold commitMessages. cbn [firstn map].
  unfold commitLine at 1. cbv zeta.
  change Lit.bullet with [0x2022%N].
  destruct cs as [|c2 [|c3 cs]]; cbn [map join app]; discriminate.
Qed.

Lemma firstLine_no_newline (s : jsstring) : ~ In 10%N (firstLine s).
Proof.
  induction s as [|c s IH]; cbn [firstLine]; [easy|].
  destruct (c =? 10)%N eqn:E; [easy|].
  apply N.eqb_neq in E. intros [H|H]; [congruence | now apply IH].
Qed.

Lemma firstn_no_newline (n : nat) (s : jsstring) :
  ~ In 10%N s -> ~ In 10%N (firstn n s).
Proof.
  intros H Hin. apply H. revert n Hin.
  induction s as [|c s IH]; intros [|n]; cbn [firstn In]; try easy.
  intros [E|Hin]; [now left | right; eapply IH; eauto].
  intros Hs. apply H. now right.
Qed.

Lemma pushCommit_unknown u (l : list Field) :
  pushCommit (str "Unknown") u l = l.
Proof. unfold pushCommit. now rewrite streq_refl. Qed.

Section BuilderProperties.

Variable toLowerCase : jsstring -> jsstring.

(** The lower-cased status is an own key of [styling] or not; when it is
    not, it may still be inherited. *)
Lemma styling_keys_not_inherited (key : jsstring) :
  existsb (streq key) objectPrototypeKeys = true -> assoc key styling = None.
Proof.
  intros H. simpl.
  repeat match goal with
  | |- context [streq key ?k] =>
      let E := fresh "E" in
      destruct (streq key k) eqn:E;
      [apply streq_eq in E; subst key; vm_compute in H; discriminate|]
  end.
  reflexivity.
Qed.

Lemma getStatusStyling_inherited (status : jsstring) :
  existsb (streq (toLowerCase status)) objectPrototypeKeys = true ->
  getStatusStyling toLowerCase status = Inherited (toLowerCase status).
Proof.
  intros H. unfold getStatusStyling, getOr, get.
  now rewrite (styling_keys_not_inherited _ H), H.
Qed.

Lemma getStatusStyling_own (status : jsstring) :
  existsb (streq (toLowerCase status)) objectPrototypeKeys = false ->
  exists s, getStatusStyling toLowerCase status = Own s.
Proof.
  unfold getStatusStyling, getOr, get. intros H. rewrite H.
  destruct (assoc (toLowerCase status) styling); eauto.
Qed.

(** [buildEmbed] raises exactly in the case [raisesTypeError] describes,
    and returns an embed in every other. *)
Lemma buildEmbed_cases context jobStatus customTitle customDescription
    customColor includeDetails now :
  let r := buildEmbed toLowerCase context jobStatus customTitle
             customDescription customColor includeDetails now in
  yields r (raisesTypeError toLowerCase jobStatus customDescription)
    (fun e => r = Normal e).
Proof.
  cbv zeta. unfold yields, raisesTypeError, buildEmbed.
  destruct (truthy (ofString customDescription)); cbn [negb andb bind].
  { eexists; split; reflexivity. }
  destruct (existsb (streq (toLowerCase jobStatus)) objectPrototypeKeys) eqn:K.
  - rewrite (getStatusStyling_inherited _ K).
    assert (N : streq (toLowerCase jobStatus) (str "success") = false).
    { apply streq_neq. intros E. rewrite E in K. vm_compute in K. discriminate. }
    rewrite N. reflexivity.
  - destruct (getStatusStyling_own _ K) as [s ->].
    destruct (streq (toLowerCase jobStatus) (str "success"));
      cbn [negb bind callToLowerCase field]; eexists; split; reflexivity.
Qed.

(** Reduce a goal [yields (buildEmbed ...) _ P] to [P] on the embed the
    source assembles, with [Hd] telling how its description was made. *)
Ltac built_embed d Hd :=
  apply yields_built; [apply buildEmbed_cases|];
  let e := fresh "e" in
  let He := fresh "He" in
  intros e He; unfold buildEmbed in He; cbv zeta in He;
  apply bind_Normal_inv in He; destruct He as (d & Hd & He);
  apply Normal_inj in He; subst e.

(** C1. The colour of the built embed is resolved by priority: a
    non-empty [customColor] gives [parseInt(customColor, 16)] whatever the
    status and the event; otherwise a lower-cased status other than
    "success" gives the colour of the status styling; otherwise the colour
    of the event metadata.  In particular [customColor = "00ff00"] gives
    0x00ff00 for every status and event, "failure" and "push" included.
    The parsed colour is a Number: the fourteen digits "20000000000001"
    (2^53 + 1) give 2^53, and 257 digits "f" give Infinity. *)
Theorem color_resolution context jobStatus customTitle customDescription
    customColor includeDetails now :
  yields (buildEmbed toLowerCase context jobStatus customTitle
            customDescription customColor includeDetails now)
    (raisesTypeError toLowerCase jobStatus customDescription)
    (fun e =>
       (forall c, customColor = Some c -> c <> [] ->
                  color e = Num (parseInt16 c))
       /\ (truthy (ofString customColor) = false ->
           toLowerCase jobStatus <> str "success" ->
           color e = field (fun s => Num (Int (style_color s)))
                       (getStatusStyling toLowerCase jobStatus))
       /\ (truthy (ofString customColor) = false ->
           toLowerCase jobStatus = str "success" ->
           color e = field (fun m => Num (Int (meta_color m)))
                       (getEventMetadata (eventName context) (payload context)))
       /\ (customColor = Some (str "00ff00") -> color e = Num (Int 0x00ff00))
       /\ (customColor = Some (str "20000000000001") ->
           color e = Num (Int 9007199254740992))
       /\ (customColor = Some (List.repeat 102%N 257) ->
           color e = Num (Infinity false))).
Proof.
  built_embed d Hd. cbn [color]. repeat split.
  - intros c -> Hc. apply truthy_Str in Hc. cbn [ofString orElse].
    rewrite Hc. simpl in Hc. apply negb_true_iff in Hc. now rewrite Hc.
  - intros -> Hs. apply streq_neq in Hs. now rewrite Hs.
  - intros -> Hs. apply streq_eq in Hs. now rewrite Hs.
  - intros ->. reflexivity.
  - intros ->. vm_compute. reflexivity.
  - intros ->. vm_compute. reflexivity.
Qed.

(** C2. The "View Details" field, non-inline and linking to
    [{repoUrl}/actions/runs/{runId}], is appended as the last field exactly
    when the run identifier and the repository URL are both present, that
    is when [context.runId] is a value JavaScript takes as true and
    [context.payload.repository.html_url] is a non-empty text, whatever
    [includeDetails] is; no other field carries its name.  With
    [includeDetails = false] the embed thus has exactly that one field
    when both are present and no field otherwise.  The run identifier is
    written as a template literal writes a Number: 4242 as "4242", and
    10^21 as "1e+21". *)
Theorem workflow_run_link context jobStatus customTitle customDescription
    customColor includeDetails now :
  yields (buildEmbed toLowerCase context jobStatus customTitle
            customDescription customColor includeDetails now)
    (raisesTypeError toLowerCase jobStatus customDescription)
    (fun e =>
       let details :=
         map validateField
             (if includeDetails then pushDetails context [] else []) in
       let linkTo (url run : jsstring) : Field :=
         {| name := Lit.link ++ str " Workflow Run";
            value := substring0 1024
                       (str "[View Details](" ++ url ++ str "/actions/runs/"
                        ++ run ++ str ")");
            inline := false |} in
       (forall r url,
           repository (payload context) = Some r ->
           repo_html_url r = Some url -> url <> [] ->
           truthy (runId context) = true ->
           fields e = details ++ [linkTo url (toString (runId context))]
           /\ (runId context = Num (Int 4242) ->
               fields e = details ++ [linkTo url (str "4242")])
           /\ (runId context = Num (Int (10 ^ 21)) ->
               fields e = details ++ [linkTo url (str "1e+21")]))
       /\ (repository (payload context) = None
           \/ (exists r, repository (payload context) = Some r
                         /\ (repo_html_url r = None
                             \/ repo_html_url r = Some []))
           \/ truthy (runId context) = false ->
           fields e = details)
       /\ Forall (fun f => name f <> Lit.link ++ str " Workflow Run") details
       /\ (includeDetails = false -> details = [])).
Proof.
  built_embed d Hd. cbv zeta. cbn [fields].
  assert (V : forall url run,
             validateField
               {| name := Lit.link ++ str " Workflow Run";
                  value := str "[View Details](" ++ url
                           ++ str "/actions/runs/" ++ run ++ str ")";
                  inline := false |}
             = {| name := Lit.link ++ str " Workflow Run";
                  value := substring0 1024
                             (str "[View Details](" ++ url
                              ++ str "/actions/runs/" ++ run ++ str ")");
                  inline := false |}) by reflexivity.
  assert (F : map validateField
                (pushWorkflowRun (runId context) (repoUrl (payload context))
                   (if includeDetails then pushDetails context [] else []))
              = map validateField
                  (if includeDetails then pushDetails context [] else [])
                ++ (if truthy (runId context)
                       && truthy (Str (repoUrl (payload context)))
                    then [validateField (workflowRunField context)] else [])).
  { rewrite pushWorkflowRun_app, map_app. f_equal.
    unfold pushWorkflowRun, push.
    now destruct (truthy (runId context) && truthy _). }
  rewrite F. clear F. split; [|split; [|split]].
  - intros r url Hr Hu Hne Hid.
    assert (U : repoUrl (payload context) = url).
    { unfold repoUrl. rewrite Hr, Hu. cbn [orElse].
      destruct url; [easy | reflexivity]. }
    assert (T : truthy (Str (repoUrl (payload context))) = true).
    { rewrite U. destruct url; [easy | reflexivity]. }
    rewrite Hid, T. cbn [andb]. unfold workflowRunField. rewrite U.
    rewrite <- V, <- !app_assoc.
    split; [reflexivity|]. split; intros ->; reflexivity.
  - intros H.
    assert (A : truthy (runId context)
                && truthy (Str (repoUrl (payload context))) = false).
    { destruct H as [H|[(r & Hr & [H|H])|H]].
      - unfold repoUrl. rewrite H. apply andb_false_r.
      - unfold repoUrl. rewrite Hr, H. apply andb_false_r.
      - unfold repoUrl. rewrite Hr, H. apply andb_false_r.
      - now rewrite H. }
    rewrite A. apply app_nil_r.
  - destruct includeDetails; [|constructor].
    eapply Forall_impl; [|apply validated_details_names].
    intros f H. now apply detailNames_not_workflowRun.
  - intros ->. reflexivity.
Qed.

(** Where a field of the details section ends up in the embed. *)
Lemma in_details_in_fields context jobStatus customTitle customDescription
    customColor now (e : Embed) (f : Field) :
  buildEmbed toLowerCase context jobStatus customTitle customDescription
    customColor true now = Normal e ->
  In f (pushDetails context []) ->
  In (validateField f) (fields e).
Proof.
  intros He Hf. unfold buildEmbed in He; cbv zeta in He.
  apply bind_Normal_inv in He. destruct He as (d & _ & He).
  apply Normal_inj in He. subst e. cbn [fields].
  rewrite pushWorkflowRun_app, map_app. apply in_or_app; left.
  now apply in_map.
Qed.

(** C3. Every string of the built embed respects its cap, and the cap is
    enforced by cutting, not by raising: the title has at most 256 code
    units, the description at most 4096, the footer text at most 2048, and
    every field a name of at most 256 and a value of at most 1024; each
    field is the cut of the field that was assembled.  A custom title of
    300 code units comes out as its first 256, and a field value of 2000
    code units (here the event name) as its first 1024. *)
Theorem length_caps context jobStatus customTitle customDescription
    customColor includeDetails now :
  yields (buildEmbed toLowerCase context jobStatus customTitle
            customDescription customColor includeDetails now)
    (raisesTypeError toLowerCase jobStatus customDescription)
    (fun e =>
       (List.length (title e) <= 256)%nat
       /\ (List.length (description e) <= 4096)%nat
       /\ (List.length (footer_text e) <= 2048)%nat
       /\ Forall (fun f => (List.length (name f) <= 256)%nat
                           /\ (List.length (value f) <= 1024)%nat) (fields e)
       /\ (exists assembled, fields e = map validateField assembled)
       /\ (forall t, customTitle = Some t -> List.length t = 300%nat ->
             title e = firstn 256 t /\ List.length (title e) = 256%nat)
       /\ (includeDetails = true ->
           List.length (eventName context) = 2000%nat ->
           exists f, In f (fields e)
                     /\ name f = Lit.shuffle ++ str " Event"
                     /\ value f = firstn 1024 (eventName context)
                     /\ List.length (value f) = 1024%nat)).
Proof.
  apply yields_built; [apply buildEmbed_cases|]. intros e He.
  assert (He' := He). unfold buildEmbed in He'; cbv zeta in He'.
  apply bind_Normal_inv in He'. destruct He' as (d & Hd & He').
  apply Normal_inj in He'. rewrite <- He'.
  cbn [title description footer_text fields].
  split; [apply substring0_length|].
  split; [apply substring0_length|].
  split; [apply substring0_length|].
  split.
  { apply Forall_map, Forall_forall. intros f _. cbn [validateField name value].
    split; apply substring0_length. }
  split; [eexists; reflexivity|].
  split.
  { intros t -> Ht. destruct t as [|c t]; [discriminate|].
    cbn [orElse streq]. unfold substring0. split; [reflexivity|].
    rewrite length_firstn. lia. }
  intros -> Hlen.
  exists (validateField {| name := Lit.shuffle ++ str " Event";
                           value := eventName context; inline := true |}).
  split; [|split; [reflexivity|split]].
  - rewrite pushWorkflowRun_app, map_app. apply in_or_app; left.
    apply in_map. rewrite pushDetails_blocks. apply in_or_app; right.
    apply in_or_app; left. now left.
  - reflexivity.
  - cbn [validateField value]. unfold substring0.
    rewrite length_firstn. lia.
Qed.

(** C4. A non-empty [customTitle] is the title, cut to 256 code units
    and otherwise verbatim; a non-empty [customDescription] is the
    description, cut to 4096.  Without a custom title the title is, cut to
    256, "status emoji, event emoji, event title, status label" joined by
    spaces when the lower-cased status is not "success", and "event emoji,
    event title" when it is. *)
Theorem title_resolution context jobStatus customTitle customDescription
    customColor includeDetails now :
  yields (buildEmbed toLowerCase context jobStatus customTitle
            customDescription customColor includeDetails now)
    (raisesTypeError toLowerCase jobStatus customDescription)
    (fun e =>
       let statusStyle := getStatusStyling toLowerCase jobStatus in
       let eventMeta := getEventMetadata (eventName context) (payload context) in
       let statusEmoji := toString (field (fun s => Str (style_emoji s)) statusStyle) in
       let statusLabel := toString (field (fun s => Str (style_label s)) statusStyle) in
       let eventEmoji := toString (field (fun m => Str (meta_emoji m)) eventMeta) in
       let eventTitle := toString (field (fun m => Str (meta_title m)) eventMeta) in
       (forall t, customTitle = Some t -> t <> [] ->
          title e = substring0 256 t
          /\ ((List.length t <= 256)%nat -> title e = t))
       /\ (forall d, customDescription = Some d -> d <> [] ->
             description e = substring0 4096 d
             /\ ((List.length d <= 4096)%nat -> description e = d))
       /\ (truthy (ofString customTitle) = false ->
           toLowerCase jobStatus <> str "success" ->
           title e = substring0 256
                       (statusEmoji ++ str " " ++ eventEmoji ++ str " "
                        ++ eventTitle ++ str " " ++ statusLabel))
       /\ (truthy (ofString customTitle) = false ->
           toLowerCase jobStatus = str "success" ->
           title e = substring0 256 (eventEmoji ++ str " " ++ eventTitle))).
Proof.
  built_embed d Hd. cbv zeta. cbn [title description].
  split; [|split; [|split]].
  - intros t -> Ht. apply truthy_Str in Ht. cbn [truthy] in Ht.
    apply negb_true_iff in Ht. cbn [orElse]. rewrite Ht.
    split; [reflexivity|]. apply substring0_short.
  - intros d' -> Hd'. apply truthy_Str in Hd'.
    cbn [ofString] in Hd. rewrite Hd' in Hd.
    apply Normal_inj in Hd. subst d. cbn [truthy] in Hd'.
    apply negb_true_iff in Hd'. cbn [orElse]. rewrite Hd'.
    split; [reflexivity|]. apply substring0_short.
  - intros Ht Hs. apply streq_neq in Hs.
    now rewrite (orElse_falsy _ _ Ht), Hs.
  - intros Ht Hs. apply streq_eq in Hs.
    now rewrite (orElse_falsy _ _ Ht), Hs.
Qed.

(** C5, as amended.  For a push event with [includeDetails = true]
    and a non-empty list of commits, the fields contain the non-inline
    field "Recent Commits" whose value joins by line feeds one line for
    each of the first three commits at most, in their order; a line is a
    bullet, a space and the first 100 code units of the first line of the
    commit's message, or of "No message" when the commit has no message or
    its first line is empty.  There are [min 3 n] lines for [n] commits,
    none has a line feed or more than 102 code units.  When the list is
    empty or absent, no field of that name is in the embed. *)
Theorem recent_commits_field context jobStatus customTitle customDescription
    customColor now :
  eventName context = str "push" ->
  yields (buildEmbed toLowerCase context jobStatus customTitle
            customDescription customColor true now)
    (raisesTypeError toLowerCase jobStatus customDescription)
    (fun e =>
       let line (c : Commit) :=
         Lit.bullet ++ str " "
         ++ substring0 100
              match message c with
              | Some m => if streq (firstLine m) [] then str "No message"
                          else firstLine m
              | None => str "No message"
              end in
       (forall cs, commits (payload context) = Some cs -> cs <> [] ->
          In {| name := Lit.clipboard ++ str " Recent Commits";
                value := join Lit.newline (map line (firstn 3 cs));
                inline := false |} (fields e)
          /\ List.length (map line (firstn 3 cs)) = Nat.min 3 (List.length cs)
          /\ Forall (fun l => ~ In 10%N l /\ (List.length l <= 102)%nat)
                    (map line (firstn 3 cs)))
       /\ (commits (payload context) = None
           \/ commits (payload context) = Some [] ->
           Forall (fun f => name f <> Lit.clipboard ++ str " Recent Commits")
                  (fields e))).
Proof.
  intros Hev. built_embed d Hd. cbv zeta. cbn [fields].
  assert (L : forall c,
             Lit.bullet ++ str " "
             ++ substring0 100
                  match message c with
                  | Some m => if streq (firstLine m) [] then str "No message"
                              else firstLine m
                  | None => str "No message"
                  end = commitLine c).
  { intros c. unfold commitLine, orElse, option_map. now destruct (message c). }
  split.
  - intros cs Hcs Hne. rewrite (map_ext _ _ L). split; [|split].
    + rewrite pushWorkflowRun_app, map_app. apply in_or_app; left.
      apply in_map_iff.
      exists {| name := Lit.clipboard ++ str " Recent Commits";
                value := commitMessages cs; inline := false |}.
      split.
      * unfold validateField. cbn [name value inline].
        rewrite (@substring0_short 1024 (commitMessages cs))
          by apply commitMessages_length.
        reflexivity.
      * rewrite pushDetails_blocks. do 4 (apply in_or_app; right).
        apply in_or_app; left. unfold pushRecentCommits.
        rewrite Hcs, Hev, streq_refl, (commitMessages_truthy Hne).
        destruct cs; [easy|]. now left.
    + rewrite length_map, length_firstn. reflexivity.
    + apply Forall_map, Forall_forall. intros c _. split.
      * unfold commitLine; cbv zeta. intros Hin.
        apply in_app_or in Hin. destruct Hin as [Hin|Hin];
          [vm_compute in Hin; intuition discriminate|].
        apply in_app_or in Hin. destruct Hin as [Hin|Hin];
          [vm_compute in Hin; intuition discriminate|].
        revert Hin. apply firstn_no_newline.
        unfold orElse, option_map. destruct (message c) as [m|].
        -- destruct (streq (firstLine m) []);
             [vm_compute; intuition discriminate
             |apply firstLine_no_newline].
        -- vm_compute; intuition discriminate.
      * apply commitLine_length.
  - intros Habs. apply (@fields_without_name context true).
    + unfold detailNames. cbn [In]. do 7 right. now left.
    + apply pushDetails_without_recent_commits. unfold pushRecentCommits.
      destruct Habs as [-> | ->]; [reflexivity|].
      now rewrite andb_false_r.
Qed.

(** C10. A commit sha that is the text "Unknown" cannot be told from an
    absent one: [buildEmbed] returns the same for both, and with
    [includeDetails = true] the embed then has no field named "Commit". *)
Theorem unknown_sha_is_absent context jobStatus customTitle customDescription
    customColor now :
  (forall includeDetails,
     buildEmbed toLowerCase (withSha (Some (str "Unknown")) context) jobStatus
       customTitle customDescription customColor includeDetails now
     = buildEmbed toLowerCase (withSha None context) jobStatus
         customTitle customDescription customColor includeDetails now)
  /\ yields (buildEmbed toLowerCase (withSha (Some (str "Unknown")) context)
               jobStatus customTitle customDescription customColor true now)
       (raisesTypeError toLowerCase jobStatus customDescription)
       (fun e => Forall (fun f => name f <> Lit.memo ++ str " Commit")
                        (fields e)).
Proof.
  split; [reflexivity|].
  built_embed d Hd. cbn [fields].
  apply (@fields_without_name (withSha (Some (str "Unknown")) context) true).
  - unfold detailNames. cbn [In]. do 5 right. now left.
  - apply pushDetails_without_commit. apply pushCommit_unknown.
Qed.

(** The recognised statuses are styled by their entries, and any other
    status that is not a member of [Object.prototype] by the entry of
    "success". *)
Lemma getStatusStyling_table (status : jsstring) :
  (toLowerCase status = str "success" ->
   getStatusStyling toLowerCase status = Own styling_success)
  /\ (toLowerCase status = str "failure" ->
      getStatusStyling toLowerCase status = Own styling_failure)
  /\ (toLowerCase status = str "cancelled" ->
      getStatusStyling toLowerCase status = Own styling_cancelled)
  /\ (toLowerCase status = str "skipped" ->
      getStatusStyling toLowerCase status = Own styling_skipped)
  /\ (~ In (toLowerCase status)
         (map str ["success"; "failure"; "cancelled"; "skipped"]%string) ->
      ~ In (toLowerCase status) objectPrototypeKeys ->
      getStatusStyling toLowerCase status = Own styling_success).
Proof.
  unfold getStatusStyling, getOr, get.
  repeat split; try (intros ->; reflexivity).
  intros Hk Hp. cbn [map In] in Hk.
  assert (A : assoc (toLowerCase status) styling = None).
  { cbn [assoc styling].
    repeat match goal with
    | |- context [streq (toLowerCase status) ?k] =>
        let E := fresh "E" in
        destruct (streq (toLowerCase status) k) eqn:E;
        [apply streq_eq in E; exfalso; apply Hk; rewrite E; tauto|]
    end.
    reflexivity. }
  rewrite A.
  destruct (existsb (streq (toLowerCase status)) objectPrototypeKeys) eqn:K;
    [|reflexivity].
  exfalso. apply Hp. apply existsb_exists in K. destruct K as (k & Hin & E).
  apply streq_eq in E. now subst k.
Qed.

(** With [includeDetails = true] the field "Ref" shows what the two
    calls of [replace] leave of the ref, or of "Unknown" without a ref. *)
Lemma ref_field_value context jobStatus customTitle customDescription
    customColor now :
  yields (buildEmbed toLowerCase context jobStatus customTitle
            customDescription customColor true now)
    (raisesTypeError toLowerCase jobStatus customDescription)
    (fun e =>
       In {| name := Lit.herb ++ str " Ref";
             value := substring0 1024
                        (displayRef (orElse (ref context) (str "Unknown")));
             inline := true |} (fields e)).
Proof.
  built_embed d Hd. cbn [fields].
  rewrite pushWorkflowRun_app, map_app. apply in_or_app; left.
  apply in_map_iff.
  exists {| name := Lit.herb ++ str " Ref";
            value := displayRef (orElse (ref context) (str "Unknown"));
            inline := true |}.
  split; [reflexivity|].
  rewrite pushDetails_blocks. apply in_or_app; right.
  apply in_or_app; left. cbn [In]. tauto.
Qed.

End BuilderProperties.

(* ================================================================= *)
(** ** Runs on sample inputs *)
(* ================================================================= *)

(** The example of the colour priority: custom colour "00ff00", status
    "failure", event "push". *)
Example color_of_failed_push :
  built (buildEmbed asciiLower (Sample.pushOf Sample.main Sample.five)
           (str "failure") None None (Some (str "00ff00")) true Sample.now)
  <> None
  /\ option_map color
       (built (buildEmbed asciiLower (Sample.pushOf Sample.main Sample.five)
                 (str "failure") None None (Some (str "00ff00")) true
                 Sample.now))
     = Some (Num (Int 0x00ff00)).
Proof. vm_compute. split; [discriminate | reflexivity]. Qed.

(** Five commits give three lines, in order, each the first line of its
    message. *)
Lemma recent_commits_of_five :
  exists e,
    buildEmbed asciiLower (Sample.pushOf Sample.main Sample.five)
      (str "success") None None None true Sample.now = Normal e
    /\ In {| name := Lit.clipboard ++ str " Recent Commits";
             value := Lit.bullet ++ str " one" ++ Lit.newline
                      ++ Lit.bullet ++ str " two" ++ Lit.newline
                      ++ Lit.bullet ++ str " three";
             inline := false |} (fields e).
Proof.
  pose proof (@recent_commits_field asciiLower
                (Sample.pushOf Sample.main Sample.five) (str "success")
                None None None Sample.now eq_refl) as H.
  unfold yields in H.
  change (raisesTypeError asciiLower (str "success") None) with false in H.
  destruct H as (e & He & Hc & _). exists e. split; [exact He|].
  refine (proj1 (Hc Sample.five eq_refl _)). discriminate.
Defined.

(** C5 as stated fails on a commit whose message is empty: the field
    shows "No message", and no field has the value the statement gives,
    a bullet followed by the empty first line. *)
Lemma recent_commits_of_empty_message :
  statedCommitLines [ {| message := Some [] |} ] = Lit.bullet ++ str " "
  /\ exists e,
       buildEmbed asciiLower
         (Sample.pushOf Sample.main [ {| message := Some [] |} ])
         (str "success") None None None true Sample.now = Normal e
       /\ In {| name := Lit.clipboard ++ str " Recent Commits";
                value := Lit.bullet ++ str " No message";
                inline := false |} (fields e)
       /\ Forall (fun f => value f
                           <> statedCommitLines [ {| message := Some [] |} ])
                 (fields e).
Proof.
  split; [reflexivity|].
  eexists. split; [vm_compute; reflexivity|]. split.
  - vm_compute. repeat (first [left; reflexivity | right]).
  - repeat apply Forall_cons; try apply Forall_nil;
      intros E; vm_compute in E; discriminate.
Qed.

(** Without details, the run link is the only field, and there is no
    field at all without a run identifier. *)
Example fields_without_details :
  option_map (fun e => map name (fields e))
    (built (buildEmbed asciiLower (Sample.releaseOf Sample.bare (Num (Int 4242)))
              (str "success") None None None false Sample.now))
  = Some [Lit.link ++ str " Workflow Run"]
  /\ option_map fields
       (built (buildEmbed asciiLower (Sample.releaseOf Sample.bare Undefined)
                 (str "success") None None None false Sample.now))
     = Some [].
Proof. vm_compute. split; reflexivity. Qed.

(** The release "Big Release": title, colour and the release field. *)
Example big_release :
  exists e,
    buildEmbed asciiLower (Sample.releaseOf Sample.bigRelease (Num (Int 4242)))
      (str "success") None None None true Sample.now = Normal e
    /\ title e = Lit.rocket ++ str " Release"
    /\ color e = Num (Int 0x17a2b8)
    /\ In {| name := Lit.rocket ++ str " Release";
             value := str "[v2.0 - Big Release](https://x/rel)";
             inline := false |} (fields e).
Proof.
  eexists. split; [vm_compute; reflexivity|].
  split; [reflexivity|]. split; [reflexivity|].
  vm_compute. repeat (first [left; reflexivity | right]).
Qed.

(** *** The ref shown *)

Lemma startsWith_app (pat s : jsstring) : startsWith pat (pat ++ s) = true.
Proof.
  induction pat as [|p pat IH]; cbn [startsWith app]; [reflexivity|].
  now rewrite N.eqb_refl.
Qed.

(** A leading occurrence of the pattern is the one [replace] removes. *)
Lemma replace_leading (pat s : jsstring) : replace pat [] (pat ++ s) = s.
Proof.
  assert (E : replace pat [] (pat ++ s)
              = if startsWith pat (pat ++ s)
                then [] ++ skipn (List.length pat) (pat ++ s)
                else match pat ++ s with
                     | [] => []
                     | c :: s' => c :: replace pat [] s'
                     end)
    by now destruct (pat ++ s).
  rewrite E, startsWith_app. cbn [app].
  rewrite skipn_app, skipn_all, Nat.sub_diag. reflexivity.
Qed.

(** A string in which the pattern starts nowhere is left as it is. *)
Lemma replace_absent (pat repl s : jsstring) :
  (forall k, startsWith pat (skipn k s) = false) -> replace pat repl s = s.
Proof.
  induction s as [|c s IH]; intros H;
    pose proof (H 0%nat) as H0; cbn [skipn] in H0; cbn [replace]; rewrite H0.
  - reflexivity.
  - f_equal. apply IH. intros k. exact (H (S k)).
Qed.

(** The two refs of the specification. *)
Example displayRef_main_and_tag :
  displayRef (str "refs/heads/main") = str "main"
  /\ displayRef (str "refs/tags/v1.0") = str "v1.0"
  /\ displayRef (str "refs/pull/12/merge") = str "refs/pull/12/merge".
Proof. vm_compute. repeat split. Qed.

(** C6 at the branch [backup/refs/tags/v1]: once the leading
    "refs/heads/" is removed, the second [replace] removes the
    "refs/tags/" in the middle of the name, and the field shows
    "backup/v1". *)
Lemma displayRef_inner_prefix :
  displayRef (str "refs/heads/backup/refs/tags/v1") = str "backup/v1"
  /\ displayRef (str "refs/heads/backup/refs/tags/v1")
     <> str "backup/refs/tags/v1"
  /\ exists e,
       buildEmbed asciiLower
         (Sample.pushOf (str "refs/heads/backup/refs/tags/v1") Sample.five)
         (str "success") None None None true Sample.now = Normal e
       /\ In {| name := Lit.herb ++ str " Ref"; value := str "backup/v1";
                inline := true |} (fields e).
Proof.
  split; [reflexivity|]. split; [vm_compute; discriminate|].
  eexists. split; [vm_compute; reflexivity|].
  vm_compute. repeat (first [left; reflexivity | right]).
Qed.

(** *** getStatusStyling on an inherited name *)

(** The four recognised statuses, in any case of ASCII letters. *)
Example getStatusStyling_recognised :
  getStatusStyling asciiLower (str "success") = Own styling_success
  /\ getStatusStyling asciiLower (str "Failure") = Own styling_failure
  /\ getStatusStyling asciiLower (str "CANCELLED") = Own styling_cancelled
  /\ getStatusStyling asciiLower (str "skipped") = Own styling_skipped
  /\ getStatusStyling asciiLower (str "timed_out") = Own styling_success.
Proof. vm_compute. repeat split. Qed.

(** C8 at the status "constructor": the lookup finds the member that
    every object inherits, not an entry, so the fallback to the entry of
    "success" is not taken, and [buildEmbed] raises a TypeError when it
    lower-cases the missing label. *)
Lemma getStatusStyling_constructor :
  getStatusStyling asciiLower (str "constructor")
  = Inherited (str "constructor")
  /\ getStatusStyling asciiLower (str "constructor") <> Own styling_success
  /\ buildEmbed asciiLower (Sample.pushOf Sample.main Sample.five)
       (str "constructor") None None None true Sample.now
     = Throw TypeError.
Proof.
  split; [reflexivity|]. split; [vm_compute; discriminate|].
  vm_compute. reflexivity.
Qed.

(* ================================================================= *)
(** ** Properties of sendDiscordMessage *)
(* ================================================================= *)

Module DeliveryProperties.
Import Delivery.

(** The data handler only appends: after the chunks of a body the
    closure holds their List.concatenation, and the promise is untouched. *)
Lemma data_events (statusCode : Z) (chunks : list jsstring) (st : state) :
  fold_left (handle statusCode) (map ResData chunks) st
  = {| responseData := responseData st ++ List.concat chunks;
       promise := promise st |}.
Proof.
  revert st. induction chunks as [|chunk chunks IH]; intros [data p].
  - cbn. now rewrite app_nil_r.
  - cbn [map fold_left handle]. rewrite IH. cbn [responseData promise List.concat].
    now rewrite app_assoc.
Qed.

(** C7. A delivery that receives a response resolves, with no value, if
    and only if the status is in [200, 300); for any other status it is
    rejected with an error whose message carries the status code and the
    text of the body.  Status 204 resolves; status 500 with the body
    "oops" is rejected with both in the message. *)
Theorem delivery_outcome (statusCode : Z) (chunks : list jsstring) :
  let outcome := sendDiscordMessage statusCode (response chunks) in
  (outcome = Some Resolved <-> (200 <= statusCode < 300)%Z)
  /\ (outcome = Some (Rejected
                        (Error (str "Discord webhook returned status "
                                ++ toString (Num (Int statusCode))
                                ++ str ": " ++ List.concat chunks)))
      <-> ~ (200 <= statusCode < 300)%Z)
  /\ sendDiscordMessage 204 (response []) = Some Resolved
  /\ sendDiscordMessage 500 (response [str "oo"; str "ps"])
     = Some (Rejected (Error (str "Discord webhook returned status 500: oops"))).
Proof.
  cbv zeta. unfold sendDiscordMessage, response.
  rewrite fold_left_app, data_events. cbn [fold_left handle initial app
    responseData promise].
  assert (D : ((200 <=? statusCode) && (statusCode <? 300))%Z = true
              <-> (200 <= statusCode < 300)%Z).
  { rewrite andb_true_iff, Z.leb_le, Z.ltb_lt. reflexivity. }
  destruct ((200 <=? statusCode) && (statusCode <? 300))%Z;
    cbn [settle promise responseData].
  - assert (R : (200 <= statusCode < 300)%Z) by now apply D.
    split; [split; intros _; [exact R | reflexivity]|].
    split; [split; [discriminate | intros N; now destruct N]|].
    split; reflexivity.
  - assert (N : ~ (200 <= statusCode < 300)%Z)
      by (intros R; apply D in R; discriminate).
    split; [split; [discriminate | intros R; now destruct N]|].
    split; [split; intros _; [exact N | reflexivity]|].
    split; reflexivity.
Qed.

(** A settled promise stays as it is, whatever is emitted later. *)
Lemma settled_stays (statusCode : Z) (later : list event) (st : state)
    (s : settlement) :
  promise st = Some s ->
  promise (fold_left (handle statusCode) later st) = Some s.
Proof.
  revert st. induction later as [|ev later IH]; intros st H; [exact H|].
  cbn [fold_left]. apply IH.
  destruct ev as [chunk| |e]; cbn [handle]; unfold settle;
    try destruct (_ && _)%bool; now rewrite ?H.
Qed.

(** A transport error rejects the promise with that error. *)
Lemma transport_error (statusCode : Z) (e : error) (later : list event) :
  sendDiscordMessage statusCode (ReqError e :: later) = Some (Rejected e).
Proof.
  unfold sendDiscordMessage. cbn [fold_left]. now apply settled_stays.
Qed.

End DeliveryProperties.

(* ================================================================= *)
(** ** Further properties of buildEmbed *)
(* ================================================================= *)

Lemma existsb_streq_In (k : jsstring) (l : list jsstring) :
  existsb (streq k) l = true <-> In k l.
Proof.
  rewrite existsb_exists. split.
  - intros (x & Hin & E). apply streq_eq in E. now subst x.
  - intros Hin. exists k. split; [exact Hin | apply streq_refl].
Qed.

Lemma subseq_In (sub full : list jsstring) (x : jsstring) :
  subseq sub full = true -> In x sub -> In x full.
Proof.
  revert sub. induction full as [|y full IH]; intros [|z sub]; cbn [subseq];
    try easy.
  destruct (streq z y) eqn:E.
  - apply streq_eq in E. subst z. intros H [->|Hin]; [now left|].
    right. now apply (IH sub).
  - intros H Hin. right. now apply (IH (z :: sub)).
Qed.

Lemma subseq_NoDup (sub full : list jsstring) :
  subseq sub full = true -> NoDup full -> NoDup sub.
Proof.
  revert sub. induction full as [|y full IH]; intros [|z sub] S N;
    try constructor; try discriminate.
  - cbn [subseq] in S. inversion N as [|? ? Hy Nf]; subst.
    destruct (streq z y) eqn:E.
    + apply streq_eq in E. subst z. intros Hin. apply Hy.
      now apply (@subseq_In sub full).
    + assert (D : NoDup (z :: sub)) by now apply IH.
      now inversion D.
  - cbn [subseq] in S. inversion N as [|? ? Hy Nf]; subst.
    destruct (streq z y) eqn:E.
    + now apply IH.
    + assert (D : NoDup (z :: sub)) by now apply IH.
      now inversion D.
Qed.

Lemma fieldNames_NoDup : NoDup fieldNames.
Proof.
  unfold fieldNames, detailNames. cbn [app].
  repeat (constructor;
          [cbn [In]; intros H;
           repeat (destruct H as [H|H]; [vm_compute in H; discriminate|]);
           exact H|]).
  apply NoDup_nil.
Qed.

Lemma fieldNames_short :
  Forall (fun n => (List.length n <= 256)%nat) fieldNames.
Proof.
  unfold fieldNames. apply Forall_app. split; [apply detailNames_short|].
  apply Forall_cons; [vm_compute; lia | apply Forall_nil].
Qed.

(** *** The names each block pushes *)

Lemma pushRepository_names n u :
  map name (pushRepository n u []) = [Lit.package ++ str " Repository"].
Proof. unfold pushRepository, push. now destruct (truthy _). Qed.

Lemma pushCommit_names c u :
  map name (pushCommit c u [])
  = if negb (streq c (str "Unknown")) then [Lit.memo ++ str " Commit"] else [].
Proof.
  unfold pushCommit, push. now destruct (negb _), (truthy _).
Qed.

Lemma pushPullRequest_names ev p :
  map name (pushPullRequest ev p [])
  = if match pull_request p with Some _ => true | None => false end
       && streq ev (str "pull_request")
    then [Lit.link ++ str " Pull Request"] else [].
Proof.
  unfold pushPullRequest, push.
  now destruct (pull_request p), (streq ev _).
Qed.

Lemma pushRecentCommits_names ev p :
  map name (pushRecentCommits ev p [])
  = if match commits p with Some (_ :: _) => true | _ => false end
       && streq ev (str "push")
    then [Lit.clipboard ++ str " Recent Commits"] else [].
Proof.
  unfold pushRecentCommits, push.
  destruct (commits p) as [[|c cs]|]; cbn [List.length Nat.ltb Nat.leb andb];
    rewrite ?andb_false_r; try reflexivity.
  rewrite andb_true_r, (@commitMessages_truthy (c :: cs)) by discriminate.
  now destruct (streq ev _).
Qed.

Lemma pushRelease_names ev p :
  map name (pushRelease ev p [])
  = if match release p with Some _ => true | None => false end
       && streq ev (str "release")
    then [Lit.rocket ++ str " Release"] else [].
Proof.
  unfold pushRelease, push. now destruct (release p), (streq ev _).
Qed.

Lemma pushIssue_names ev p :
  map name (pushIssue ev p [])
  = if match issue p with Some _ => true | None => false end
       && streq ev (str "issues")
    then [Lit.bug ++ str " Issue"] else [].
Proof.
  unfold pushIssue, push. now destruct (issue p), (streq ev _).
Qed.

Lemma pushWorkflowRun_names r u :
  map name (pushWorkflowRun r u [])
  = if truthy r && truthy (Str u) then [Lit.link ++ str " Workflow Run"] else [].
Proof.
  unfold pushWorkflowRun, push. now destruct (truthy r && truthy (Str u)).
Qed.

(** The truncation pass leaves the names of the fields as they are. *)
Lemma validated_names (l : list Field) :
  Forall (fun f => In (name f) fieldNames) l ->
  map name (map validateField l) = map name l.
Proof.
  induction 1 as [|f l Hf _ IH]; [reflexivity|].
  cbn [map]. rewrite IH. f_equal. cbn [validateField name].
  apply substring0_short.
  exact (proj1 (Forall_forall _ _) fieldNames_short _ Hf).
Qed.

(** The names of the fields of an embed, before the truncation pass, by
    the tests of the source. *)
Lemma assembled_names (context : Context) (includeDetails : bool) :
  map name
    (pushWorkflowRun (runId context) (repoUrl (payload context))
       (if includeDetails then pushDetails context [] else []))
  = (if includeDetails
     then firstn 5 fieldNames
          ++ (if negb (streq (orElse (sha context) (str "Unknown"))
                             (str "Unknown"))
              then [Lit.memo ++ str " Commit"] else [])
          ++ (if match pull_request (payload context) with
                 | Some _ => true | None => false end
                 && streq (eventName context) (str "pull_request")
              then [Lit.link ++ str " Pull Request"] else [])
          ++ (if match commits (payload context) with
                 | Some (_ :: _) => true | _ => false end
                 && streq (eventName context) (str "push")
              then [Lit.clipboard ++ str " Recent Commits"] else [])
          ++ (if match release (payload context) with
                 | Some _ => true | None => false end
                 && streq (eventName context) (str "release")
              then [Lit.rocket ++ str " Release"] else [])
          ++ (if match issue (payload context) with
                 | Some _ => true | None => false end
                 && streq (eventName context) (str "issues")
              then [Lit.bug ++ str " Issue"] else [])
     else [])
    ++ (if truthy (runId context) && truthy (Str (repoUrl (payload context)))
        then [Lit.link ++ str " Workflow Run"] else []).
Proof.
  rewrite pushWorkflowRun_app, map_app, pushWorkflowRun_names. f_equal.
  destruct includeDetails; [|reflexivity].
  rewrite pushDetails_blocks, !map_app, pushRepository_names, pushCommit_names,
    pushPullRequest_names, pushRecentCommits_names, pushRelease_names,
    pushIssue_names.
  reflexivity.
Qed.

(** Those names are [fieldNames] with some left out. *)
Lemma assembled_names_subseq (context : Context) (includeDetails : bool) :
  subseq
    (map name
       (pushWorkflowRun (runId context) (repoUrl (payload context))
          (if includeDetails then pushDetails context [] else [])))
    fieldNames = true.
Proof.
  rewrite assembled_names.
  generalize (eventName context) as ev. intros ev.
  destruct includeDetails;
    [|now destruct (truthy (runId context) && truthy _)].
  destruct (negb (streq (orElse (sha context) (str "Unknown")) (str "Unknown")));
    destruct (truthy (runId context) && truthy _);
    destruct (match pull_request (payload context) with
              | Some _ => true | None => false end
              && streq ev (str "pull_request"));
    destruct (match commits (payload context) with
              | Some (_ :: _) => true | _ => false end
              && streq ev (str "push"));
    destruct (match release (payload context) with
              | Some _ => true | None => false end
              && streq ev (str "release"));
    destruct (match issue (payload context) with
              | Some _ => true | None => false end
              && streq ev (str "issues"));
    vm_compute; reflexivity.
Qed.

(** The truncation pass changes no name of the fields of an embed. *)
Lemma assembled_names_validated (context : Context) (includeDetails : bool) :
  let l := pushWorkflowRun (runId context) (repoUrl (payload context))
             (if includeDetails then pushDetails context [] else []) in
  map name (map validateField l) = map name l.
Proof.
  cbv zeta. apply validated_names, Forall_forall. intros f Hf.
  apply (@subseq_In _ fieldNames _ (assembled_names_subseq context includeDetails)).
  now apply in_map.
Qed.

Lemma detailed_names (context : Context) :
  map name
    (map validateField
       (pushWorkflowRun (runId context) (repoUrl (payload context))
          (pushDetails context [])))
  = (firstn 5 fieldNames
     ++ (if negb (streq (orElse (sha context) (str "Unknown"))
                        (str "Unknown"))
         then [Lit.memo ++ str " Commit"] else [])
     ++ (if match pull_request (payload context) with
            | Some _ => true | None => false end
            && streq (eventName context) (str "pull_request")
         then [Lit.link ++ str " Pull Request"] else [])
     ++ (if match commits (payload context) with
            | Some (_ :: _) => true | _ => false end
            && streq (eventName context) (str "push")
         then [Lit.clipboard ++ str " Recent Commits"] else [])
     ++ (if match release (payload context) with
            | Some _ => true | None => false end
            && streq (eventName context) (str "release")
         then [Lit.rocket ++ str " Release"] else [])
     ++ (if match issue (payload context) with
            | Some _ => true | None => false end
            && streq (eventName context) (str "issues")
         then [Lit.bug ++ str " Issue"] else []))
    ++ (if truthy (runId context) && truthy (Str (repoUrl (payload context)))
        then [Lit.link ++ str " Workflow Run"] else []).
Proof.
  pose proof (assembled_names_validated context true) as V.
  pose proof (assembled_names context true) as N.
  cbv beta zeta iota in V, N. now rewrite V, N.
Qed.

(** No field has the name [n] if [n] is not among the names. *)
Lemma no_field_named (n : jsstring) (l : list Field) :
  ~ In n (map name l) -> Forall (fun f => name f <> n) l.
Proof.
  intros H. apply Forall_forall. intros f Hf E. apply H.
  rewrite <- E. now apply in_map.
Qed.

(** Decide that a name is not in a list of names put together from
    singletons under tests. *)
Ltac not_among :=
  rewrite ?in_app_iff;
  repeat match goal with
    | |- context [if ?b then [_] else []] => destruct b
    end;
  cbn [In firstn fieldNames detailNames app];
  let H := fresh "H" in
  intros H;
  repeat match goal with
    | H : _ \/ _ |- _ => destruct H as [H|H]
    end;
  try (vm_compute in H; discriminate); try contradiction.

(** *** [parseInt(s, 16)] on the texts a colour can be *)

Ltac hexDigit_cases c :=
  unfold hexDigit;
  destruct ((48 <=? c) && (c <=? 57))%N eqn:A;
    [|destruct ((97 <=? c) && (c <=? 102))%N eqn:B;
      [|destruct ((65 <=? c) && (c <=? 70))%N eqn:C]];
  cbv beta iota;
  try match goal with
    | H : (_ && _)%bool = true |- _ =>
        apply andb_true_iff in H; destruct H as [H1 H2];
        apply N.leb_le in H1; apply N.leb_le in H2
    end.

Lemma hexDigit_range (c : char16) (d : Z) :
  hexDigit c = Some d -> (0 <= d < 16)%Z.
Proof.
  hexDigit_cases c; intros [= <-]; lia.
Qed.

Lemma hexDigit_not_space (c : char16) (d : Z) :
  hexDigit c = Some d ->
  isWhiteSpace c = false /\ c <> 45%N /\ c <> 43%N /\ c <> 120%N /\ c <> 88%N.
Proof.
  hexDigit_cases c; [| | |discriminate]; intros _.
  all: repeat split; try lia.
  all: unfold isWhiteSpace; cbn [existsb];
    repeat (apply orb_false_iff; split); try reflexivity;
    apply N.eqb_neq; lia.
Qed.

(** A run of hexadecimal digits is read in full, as the number it
    writes in base 16. *)
Lemma hexDigits_all (s : jsstring) (a : Z) :
  Forall (fun c => hexDigit c <> None) s -> (0 <= a)%Z ->
  exists v, hexDigits (Some a) s = Some v
            /\ (a * 16 ^ Z.of_nat (List.length s) <= v
                < (a + 1) * 16 ^ Z.of_nat (List.length s))%Z.
Proof.
  intros H. revert a. induction H as [|c s Hc _ IH]; intros a Ha.
  - exists a. cbn. split; [reflexivity | lia].
  - cbn [hexDigits]. destruct (hexDigit c) as [d|] eqn:E; [|easy].
    pose proof (hexDigit_range _ E) as Hd.
    destruct (IH (16 * a + d)%Z ltac:(lia)) as (v & Hv & Hr).
    exists v. split; [exact Hv|].
    cbn [List.length]. rewrite Nat2Z.inj_succ, Z.pow_succ_r by lia.
    nia.
Qed.

Lemma hexDigits_first (c : char16) (s : jsstring) (d : Z) :
  hexDigit c = Some d -> hexDigits None (c :: s) = hexDigits (Some d) s.
Proof.
  intros E. cbn [hexDigits]. rewrite E.
  change (hexDigits (Some (16 * 0 + d)%Z) s = hexDigits (Some d) s).
  now rewrite Z.mul_0_r, Z.add_0_l.
Qed.

(** An integer of fewer than 53 bits is a Number as it is. *)
Lemma roundInt_small (z : Z) : (Z.abs z < 2 ^ 53)%Z -> roundInt z = Int z.
Proof.
  intros H. unfold roundInt. apply Z.ltb_lt in H. now rewrite H.
Qed.

(** Up to thirteen hexadecimal digits are read as the number they
    write: it has at most 52 bits, and no rounding takes place. *)
Lemma parseInt16_hex (s : jsstring) :
  s <> [] -> allHex s -> (List.length s <= 13)%nat ->
  exists v, parseInt16 s = Int v
            /\ (0 <= v < 16 ^ Z.of_nat (List.length s))%Z.
Proof.
  intros Hne H Hl. destruct s as [|c s]; [easy|]. clear Hne.
  inversion H as [|? ? Hc Hs]; subst.
  destruct (hexDigit c) as [d|] eqn:E; [|easy].
  destruct (hexDigit_not_space _ E) as (W & M & P & _).
  pose proof (hexDigit_range _ E) as Hd.
  destruct (@hexDigits_all s d Hs ltac:(lia)) as (v & Hv & Hr).
  assert (B : (Z.abs (1 * v) < 2 ^ 53)%Z).
  { cbn [List.length] in Hl.
    assert (16 ^ Z.of_nat (List.length s) <= 16 ^ 12)%Z
      by (apply Z.pow_le_mono_r; lia).
    change (2 ^ 53)%Z with (2 * 16 ^ 13)%Z. change (16 ^ 13)%Z with (16 * 16 ^ 12)%Z.
    nia. }
  assert (R : parseInt16 (c :: s) = Int (1 * v)).
  { rewrite <- (@roundInt_small _ B). unfold parseInt16. cbn [trimStart]. rewrite W.
    apply N.eqb_neq in M, P. rewrite M, P. cbv beta iota zeta.
    destruct s as [|cx s'].
    - now rewrite (@hexDigits_first c [] d E), Hv.
    - inversion Hs as [|? ? Hx _]; subst.
      destruct (hexDigit cx) as [dx|] eqn:Ex; [|easy].
      destruct (hexDigit_not_space _ Ex) as (_ & _ & _ & X1 & X2).
      apply N.eqb_neq in X1, X2. rewrite X1, X2, andb_false_r.
      now rewrite (@hexDigits_first c (cx :: s') d E), Hv. }
  exists (1 * v)%Z. split; [exact R|].
  cbn [List.length]. rewrite Nat2Z.inj_succ, Z.pow_succ_r by lia.
  nia.
Qed.

(** A text that starts with something else than white space, a sign or
    a hexadecimal digit, such as the "#" of "#ff0000", is not a number. *)
Lemma parseInt16_NaN (c : char16) (rest : jsstring) :
  hexDigit c = None -> isWhiteSpace c = false -> c <> 45%N -> c <> 43%N ->
  parseInt16 (c :: rest) = NaN.
Proof.
  intros H W M P. unfold parseInt16. cbn [trimStart]. rewrite W.
  apply N.eqb_neq in M, P. rewrite M, P.
  assert (Z0 : (c =? 48)%N = false).
  { apply N.eqb_neq. intros ->. vm_compute in H. discriminate. }
  cbv beta iota zeta.
  destruct rest as [|cx rest]; rewrite ?Z0; cbn [andb hexDigits];
    now rewrite H.
Qed.

(** *** The table of getEventMetadata *)

Lemma assoc_In {A} (key : jsstring) (table : list (jsstring * A)) (a : A) :
  assoc key table = Some a -> In (key, a) table.
Proof.
  induction table as [|[k b] table IH]; cbn [assoc]; [discriminate|].
  destruct (streq key k) eqn:E.
  - apply streq_eq in E. subst k. intros [= ->]. now left.
  - intros H. right. now apply IH.
Qed.

Lemma assoc_None {A} (key : jsstring) (table : list (jsstring * A)) :
  ~ In key (map fst table) -> assoc key table = None.
Proof.
  induction table as [|[k b] table IH]; cbn [assoc map fst In]; [reflexivity|].
  intros H. destruct (streq key k) eqn:E.
  - apply streq_eq in E. subst k. exfalso. apply H. now left.
  - apply IH. intros Hin. apply H. now right.
Qed.

Lemma metadata_keys (payload : Payload) :
  map fst (metadata payload) = supportedEvents.
Proof. reflexivity. Qed.

Lemma describe_nonempty cond prefix suffix otherwise :
  otherwise <> [] -> prefix ++ suffix <> [] ->
  describe cond prefix suffix otherwise <> [].
Proof.
  intros Ho Hp. unfold describe. destruct (truthy cond); [|exact Ho].
  intros E. apply Hp.
  apply app_eq_nil in E. destruct E as [-> E].
  apply app_eq_nil in E. now destruct E as [_ ->].
Qed.

(** Every entry of the table, and the entry made for an unknown event,
    has a colour of 24 bits, an emoji and a description. *)
Lemma getEventMetadata_entry (ev : jsstring) (payload : Payload) (m : EventMeta) :
  getEventMetadata ev payload = Own m ->
  (0 <= meta_color m <= 0xFFFFFF)%Z
  /\ meta_emoji m <> [] /\ meta_description m <> [].
Proof.
  unfold getEventMetadata, getOr, get.
  destruct (assoc ev (metadata payload)) as [m'|] eqn:A.
  - intros [= <-]. apply assoc_In in A. unfold metadata in A. cbn [In] in A.
    repeat (destruct A as [A|A];
            [injection A as _ <-; cbn [meta_color meta_emoji meta_description];
             (split; [lia|split; [discriminate|]]);
             first [discriminate
                   | apply describe_nonempty; discriminate]|]).
    destruct A.
  - destruct (existsb (streq ev) objectPrototypeKeys); [discriminate|].
    intros [= <-]. cbn [meta_color meta_emoji meta_description].
    split; [lia|split; discriminate].
Qed.

Lemma getStatusStyling_entry toLowerCase (status : jsstring) (s : StatusStyle) :
  getStatusStyling toLowerCase status = Own s ->
  (0 <= style_color s <= 0xFFFFFF)%Z.
Proof.
  unfold getStatusStyling, getOr, get.
  destruct (assoc (toLowerCase status) styling) as [s'|] eqn:A.
  - intros [= <-]. apply assoc_In in A. unfold styling in A. cbn [In] in A.
    repeat (destruct A as [A|A];
            [injection A as _ <-; cbn [style_color]; vm_compute;
             split; discriminate|]).
    destruct A.
  - destruct (existsb (streq (toLowerCase status)) objectPrototypeKeys);
      [discriminate|].
    intros [= <-]. vm_compute. split; discriminate.
Qed.

Lemma supported_not_inherited (ev : jsstring) :
  In ev objectPrototypeKeys -> ~ In ev supportedEvents.
Proof.
  unfold objectPrototypeKeys, supportedEvents. cbn [map In]. intros H S.
  repeat (destruct H as [H|H];
          [subst ev;
           repeat (destruct S as [S|S]; [vm_compute in S; discriminate|]);
           exact S|]).
  exact H.
Qed.

(** What the lookup of an event name finds. *)
Lemma getEventMetadata_inherited (ev : jsstring) (payload : Payload) :
  In ev objectPrototypeKeys -> getEventMetadata ev payload = Inherited ev.
Proof.
  intros H. unfold getEventMetadata, getOr, get.
  rewrite assoc_None
    by (rewrite metadata_keys; now apply supported_not_inherited).
  apply existsb_streq_In in H. now rewrite H.
Qed.

(** *** The title made for an unknown event *)

Lemma underscoresToSpaces_length (s : jsstring) :
  List.length (underscoresToSpaces s) = List.length s.
Proof. apply length_map. Qed.

Lemma underscoresToSpaces_none (s : jsstring) :
  ~ In 95%N (underscoresToSpaces s).
Proof.
  unfold underscoresToSpaces. intros H. apply in_map_iff in H.
  destruct H as (c & E & _). destruct (c =? 95)%N eqn:C; [discriminate|].
  apply N.eqb_neq in C. congruence.
Qed.

Lemma capitalizeWords_length (b : bool) (s : jsstring) :
  List.length (capitalizeWords b s) = List.length s.
Proof.
  revert b. induction s as [|c s IH]; intros b; cbn [capitalizeWords List.length];
    [reflexivity | now rewrite IH].
Qed.

Lemma upperChar_underscore (c : char16) : upperChar c = 95%N -> c = 95%N.
Proof.
  unfold upperChar. destruct ((97 <=? c) && (c <=? 122))%N eqn:A; [|easy].
  apply andb_true_iff in A. destruct A as [A1 A2].
  apply N.leb_le in A1. apply N.leb_le in A2. lia.
Qed.

Lemma capitalizeWords_underscore (b : bool) (s : jsstring) :
  In 95%N (capitalizeWords b s) -> In 95%N s.
Proof.
  revert b. induction s as [|c s IH]; intros b; cbn [capitalizeWords In];
    [easy|].
  intros [H|H]; [left | right; now apply (IH _ H)].
  destruct (b && isWordChar c); [now apply upperChar_underscore | exact H].
Qed.

(** An event that is neither in the table nor a member of
    [Object.prototype] gets the bell, the blue of the default and the
    generic description; its title is the event name with every underscore
    turned into a space and the first letter of every word in upper case,
    so it has the length of the name and no underscore. *)
Theorem unknown_event_metadata (ev : jsstring) (payload : Payload) :
  ~ In ev supportedEvents -> ~ In ev objectPrototypeKeys ->
  exists title,
    getEventMetadata ev payload
    = Own {| meta_emoji := Lit.bell; meta_title := title;
             meta_description := str "GitHub event triggered";
             meta_color := 0x0366d6 |}
    /\ title = capitalizeWords true (underscoresToSpaces ev)
    /\ List.length title = List.length ev
    /\ ~ In 95%N title
    /\ (forall c rest, ev = c :: rest ->
          exists rest', title = upperChar (if (c =? 95)%N then 32%N else c)
                                :: rest').
Proof.
  intros S P. eexists. split; [|split; [reflexivity|]].
  - unfold getEventMetadata, getOr, get.
    rewrite assoc_None by now rewrite metadata_keys.
    destruct (existsb (streq ev) objectPrototypeKeys) eqn:K; [|reflexivity].
    apply existsb_streq_In in K. contradiction.
  - split; [now rewrite capitalizeWords_length, underscoresToSpaces_length|].
    split.
    + intros H. apply capitalizeWords_underscore in H.
      now apply underscoresToSpaces_none in H.
    + intros c rest ->. cbn [underscoresToSpaces map capitalizeWords andb].
      eexists. f_equal.
      destruct (c =? 95)%N eqn:C; [reflexivity|].
      unfold upperChar, isWordChar.
      destruct ((97 <=? c) && (c <=? 122))%N eqn:L.
      * now rewrite orb_true_r.
      * now destruct (_ || _ || _ || _)%bool.
Qed.

Ltac embed_built d Hd :=
  apply yields_built; [apply buildEmbed_cases|];
  let e := fresh "e" in
  let He := fresh "He" in
  intros e He; unfold buildEmbed in He; cbv zeta in He;
  apply bind_Normal_inv in He; destruct He as (d & Hd & He);
  apply Normal_inj in He; subst e.

Section FurtherBuilderProperties.

Variable toLowerCase : jsstring -> jsstring.

(** On a [Context], whose event name is a string, [buildEmbed] raises,
    and then a TypeError, exactly when no custom description is given
    and the lower-cased status names a member of [Object.prototype]; on
    every other such input it returns an embed. *)
Theorem buildEmbed_raises_exactly context jobStatus customTitle
    customDescription customColor includeDetails now :
  let r := buildEmbed toLowerCase context jobStatus customTitle
             customDescription customColor includeDetails now in
  (r = Throw TypeError
   <-> truthy (ofString customDescription) = false
       /\ In (toLowerCase jobStatus) objectPrototypeKeys)
  /\ ((exists e, r = Normal e)
      <-> truthy (ofString customDescription) = true
          \/ ~ In (toLowerCase jobStatus) objectPrototypeKeys).
Proof.
  cbv zeta.
  pose proof (buildEmbed_cases toLowerCase context jobStatus customTitle
                customDescription customColor includeDetails now) as H.
  cbv zeta in H. unfold yields, raisesTypeError in H.
  rewrite <- existsb_streq_In.
  destruct (truthy (ofString customDescription)),
    (existsb (streq (toLowerCase jobStatus)) objectPrototypeKeys);
    cbn [negb andb] in H.
  all: try (destruct H as (e & -> & _)); try rewrite H.
  all: repeat split; intros;
    repeat match goal with
      | H : _ /\ _ |- _ => destruct H
      | H : exists _, _ |- _ => destruct H
      | H : _ \/ _ |- _ => destruct H
      end;
    try discriminate; try congruence; eauto.
Qed.

(** The fields of an embed come in the fixed order of the source: their
    names are [fieldNames] with some names left out, so no two fields
    share a name.  With the details the first five names are always
    there and there are at most eight fields (one event carries at most
    one field of its own); without them there is at most the run link. *)
Theorem fields_in_fixed_order context jobStatus customTitle customDescription
    customColor includeDetails now :
  yields (buildEmbed toLowerCase context jobStatus customTitle
            customDescription customColor includeDetails now)
    (raisesTypeError toLowerCase jobStatus customDescription)
    (fun e =>
       let names := map name (fields e) in
       subseq names fieldNames = true
       /\ NoDup names
       /\ (List.length (fields e) <= 8)%nat
       /\ (includeDetails = true ->
           firstn 5 names = firstn 5 fieldNames
           /\ (5 <= List.length (fields e))%nat)
       /\ (includeDetails = false -> (List.length (fields e) <= 1)%nat)).
Proof.
  embed_built d Hd. cbv zeta. cbn [fields].
  rewrite <- (length_map name (map validateField _)).
  rewrite assembled_names_validated.
  pose proof (assembled_names_subseq context includeDetails) as S.
  split; [exact S|].
  split; [exact (@subseq_NoDup _ _ S fieldNames_NoDup)|].
  clear S. rewrite assembled_names.
  generalize (eventName context) as ev. intros ev.
  destruct includeDetails.
  2: { destruct (truthy (runId context) && truthy _); cbn;
       repeat split; intros; try discriminate; lia. }
  destruct (negb (streq (orElse (sha context) (str "Unknown")) (str "Unknown")));
    destruct (truthy (runId context) && truthy _);
    (destruct (streq ev (str "pull_request")) eqn:E1;
     [apply streq_eq in E1; subst ev
     |destruct (streq ev (str "push")) eqn:E2;
      [apply streq_eq in E2; subst ev
      |destruct (streq ev (str "release")) eqn:E3;
       [apply streq_eq in E3; subst ev
       |destruct (streq ev (str "issues")) eqn:E4;
        [apply streq_eq in E4; subst ev|]]]]);
    rewrite ?andb_false_r, ?andb_true_r;
    repeat match goal with
      | |- context [streq (str ?a) (str ?b)] =>
          let v := eval vm_compute in (streq (str a) (str b)) in
          change (streq (str a) (str b)) with v
      end;
    rewrite ?andb_false_r, ?andb_true_r;
    try destruct (pull_request (payload context));
    try destruct (commits (payload context)) as [[|? ?]|];
    try destruct (release (payload context));
    try destruct (issue (payload context));
    cbn [List.length app firstn fieldNames detailNames];
    (split; [lia|split; [intros _; split; [reflexivity | lia] | discriminate]]).
Qed.

(** With the details, the field "Commit" is in the embed exactly when the
    sha is known (not empty and not the text "Unknown"): its value is the
    first seven code units of the sha, linked to
    [{repoUrl}/commit/{sha}] when the repository URL is known. *)
Theorem commit_field context jobStatus customTitle customDescription
    customColor now :
  yields (buildEmbed toLowerCase context jobStatus customTitle
            customDescription customColor true now)
    (raisesTypeError toLowerCase jobStatus customDescription)
    (fun e =>
       let commitSha := orElse (sha context) (str "Unknown") in
       let url := repoUrl (payload context) in
       (commitSha <> str "Unknown" ->
        In (validateField
              {| name := Lit.memo ++ str " Commit";
                 value := if truthy (Str url)
                          then str "[" ++ substring0 7 commitSha ++ str "]("
                               ++ url ++ str "/commit/" ++ commitSha ++ str ")"
                          else substring0 7 commitSha;
                 inline := true |}) (fields e))
       /\ (commitSha = str "Unknown" ->
           Forall (fun f => name f <> Lit.memo ++ str " Commit") (fields e))).
Proof.
  embed_built d Hd. cbv zeta. cbn [fields]. split.
  - intros Hs. apply streq_neq in Hs.
    rewrite pushWorkflowRun_app, map_app. apply in_or_app; left.
    apply in_map. rewrite pushDetails_blocks.
    do 2 (apply in_or_app; right). apply in_or_app; left.
    unfold pushCommit, push. rewrite Hs.
    destruct (truthy (Str (repoUrl (payload context)))); now left.
  - intros Hs. apply no_field_named.
    rewrite detailed_names, Hs, streq_refl. cbn [negb]. not_among.
Qed.

(** With the details, a pull request, release or issues event whose
    payload has the matching object carries one field for it, not inline:
    "[#number - title](url)" for a pull request or an issue,
    "[tag - name](url)" for a release.  Without the object, or for another
    event, no field of that name is in the embed. *)
Theorem event_specific_fields context jobStatus customTitle customDescription
    customColor now :
  yields (buildEmbed toLowerCase context jobStatus customTitle
            customDescription customColor true now)
    (raisesTypeError toLowerCase jobStatus customDescription)
    (fun e =>
       (forall pr, eventName context = str "pull_request" ->
                   pull_request (payload context) = Some pr ->
          In (validateField
                {| name := Lit.link ++ str " Pull Request";
                   value := str "[#" ++ toString (pr_number pr) ++ str " - "
                            ++ toString (pr_title pr) ++ str "]("
                            ++ toString (pr_html_url pr) ++ str ")";
                   inline := false |}) (fields e))
       /\ (eventName context <> str "pull_request"
           \/ pull_request (payload context) = None ->
           Forall (fun f => name f <> Lit.link ++ str " Pull Request")
                  (fields e))
       /\ (forall r, eventName context = str "release" ->
                     release (payload context) = Some r ->
             In (validateField
                   {| name := Lit.rocket ++ str " Release";
                      value := str "[" ++ toString (release_tag_name r)
                               ++ str " - " ++ toString (release_name r)
                               ++ str "](" ++ toString (release_html_url r)
                               ++ str ")";
                      inline := false |}) (fields e))
       /\ (eventName context <> str "release"
           \/ release (payload context) = None ->
           Forall (fun f => name f <> Lit.rocket ++ str " Release") (fields e))
       /\ (forall i, eventName context = str "issues" ->
                     issue (payload context) = Some i ->
             In (validateField
                   {| name := Lit.bug ++ str " Issue";
                      value := str "[#" ++ toString (issue_number i)
                               ++ str " - " ++ toString (issue_title i)
                               ++ str "](" ++ toString (issue_html_url i)
                               ++ str ")";
                      inline := false |}) (fields e))
       /\ (eventName context <> str "issues"
           \/ issue (payload context) = None ->
           Forall (fun f => name f <> Lit.bug ++ str " Issue") (fields e))).
Proof.
  embed_built d Hd. cbn [fields].
  assert (A : forall f, In f (pushDetails context []) ->
                In (validateField f)
                   (map validateField
                      (pushWorkflowRun (runId context)
                         (repoUrl (payload context))
                         (pushDetails context [])))).
  { intros f Hf. rewrite pushWorkflowRun_app, map_app.
    apply in_or_app; left. now apply in_map. }
  assert (B : forall n,
             ~ In n (map name
                       (map validateField
                          (pushWorkflowRun (runId context)
                             (repoUrl (payload context))
                             (pushDetails context [])))) ->
             Forall (fun f => name f <> n)
               (map validateField
                  (pushWorkflowRun (runId context) (repoUrl (payload context))
                     (pushDetails context [])))).
  { intros n Hn. now apply no_field_named. }
  repeat split.
  - intros pr Hev Hpr. apply A. rewrite pushDetails_blocks.
    do 3 (apply in_or_app; right). apply in_or_app; left.
    unfold pushPullRequest, push. rewrite Hpr, Hev, streq_refl. now left.
  - intros H. apply B. rewrite detailed_names.
    assert (E : match pull_request (payload context) with
                | Some _ => true | None => false end
                && streq (eventName context) (str "pull_request") = false).
    { destruct H as [H| ->]; [|reflexivity].
      apply streq_neq in H. rewrite H. apply andb_false_r. }
    rewrite E. not_among.
  - intros r Hev Hr. apply A. rewrite pushDetails_blocks.
    do 5 (apply in_or_app; right). apply in_or_app; left.
    unfold pushRelease, push. rewrite Hr, Hev, streq_refl. now left.
  - intros H. apply B. rewrite detailed_names.
    assert (E : match release (payload context) with
                | Some _ => true | None => false end
                && streq (eventName context) (str "release") = false).
    { destruct H as [H| ->]; [|reflexivity].
      apply streq_neq in H. rewrite H. apply andb_false_r. }
    rewrite E. not_among.
  - intros i Hev Hi. apply A. rewrite pushDetails_blocks.
    do 6 (apply in_or_app; right).
    unfold pushIssue, push. rewrite Hi, Hev, streq_refl. now left.
  - intros H. apply B. rewrite detailed_names.
    assert (E : match issue (payload context) with
                | Some _ => true | None => false end
                && streq (eventName context) (str "issues") = false).
    { destruct H as [H| ->]; [|reflexivity].
      apply streq_neq in H. rewrite H. apply andb_false_r. }
    rewrite E. not_among.
Qed.

(** The colour of the embed is a number of 24 bits whenever it comes
    from the tables (no custom colour, neither the event name nor the
    lower-cased status a member of [Object.prototype]) and whenever the
    custom colour is one to six hexadecimal digits.  A custom colour that
    starts with any other character than white space, a sign or a
    hexadecimal digit, as "#ff0000" does, makes the colour NaN. *)
Theorem color_range context jobStatus customTitle customDescription
    customColor includeDetails now :
  yields (buildEmbed toLowerCase context jobStatus customTitle
            customDescription customColor includeDetails now)
    (raisesTypeError toLowerCase jobStatus customDescription)
    (fun e =>
       (truthy (ofString customColor) = false ->
        ~ In (toLowerCase jobStatus) objectPrototypeKeys ->
        ~ In (eventName context) objectPrototypeKeys ->
        exists c, color e = Num (Int c) /\ (0 <= c <= 0xFFFFFF)%Z)
       /\ (forall s, customColor = Some s -> s <> [] -> allHex s ->
                     (List.length s <= 6)%nat ->
           exists c, color e = Num (Int c) /\ (0 <= c <= 0xFFFFFF)%Z)
       /\ (forall c rest, customColor = Some (c :: rest) ->
                          hexDigit c = None -> isWhiteSpace c = false ->
                          c <> 45%N -> c <> 43%N ->
           color e = Num NaN)).
Proof.
  embed_built d Hd. cbn [color]. split; [|split].
  - intros Hc Hs He. rewrite Hc.
    rewrite <- existsb_streq_In in Hs, He.
    apply not_true_is_false in Hs, He.
    destruct (getStatusStyling_own toLowerCase _ Hs) as [s Es].
    assert (Em : exists m, getEventMetadata (eventName context)
                             (payload context) = Own m).
    { unfold getEventMetadata, getOr, get. rewrite He.
      destruct (assoc _ _); eauto. }
    destruct Em as [m Em]. rewrite Es, Em. cbn [field].
    destruct (negb _); eexists; (split; [reflexivity|]).
    + exact (getStatusStyling_entry _ _ Es).
    + exact (proj1 (getEventMetadata_entry _ _ Em)).
  - intros s -> Hne Hh Hl. destruct s as [|c s]; [easy|].
    cbn [ofString truthy streq negb orElse].
    destruct (@parseInt16_hex (c :: s) Hne Hh ltac:(lia)) as (v & -> & Hv).
    exists v. split; [reflexivity|].
    assert (16 ^ Z.of_nat (List.length (c :: s)) <= 16 ^ 6)%Z
      by (apply Z.pow_le_mono_r; lia).
    lia.
  - intros c rest -> Hh Hw Hm Hp.
    cbn [ofString truthy streq negb orElse].
    now rewrite parseInt16_NaN.
Qed.

(** An event name that is a member of [Object.prototype], such as
    "constructor" or "toString", is looked up as that member: with the
    status "success" and no overrides, the title reads
    "undefined undefined" and the embed has no colour. *)
Theorem inherited_event_name context jobStatus customDescription
    includeDetails now :
  In (eventName context) objectPrototypeKeys ->
  toLowerCase jobStatus = str "success" ->
  exists e,
    buildEmbed toLowerCase context jobStatus None customDescription None
      includeDetails now = Normal e
    /\ title e = str "undefined undefined"
    /\ color e = Undefined.
Proof.
  intros He Hs.
  pose proof (buildEmbed_cases toLowerCase context jobStatus None
                customDescription None includeDetails now) as H.
  cbv zeta in H. unfold yields, raisesTypeError in H. rewrite Hs in H.
  change (existsb (streq (str "success")) objectPrototypeKeys) with false in H.
  rewrite andb_false_r in H. destruct H as (e & H & _).
  exists e. split; [exact H|].
  unfold buildEmbed in H; cbv zeta in H.
  apply bind_Normal_inv in H. destruct H as (d & _ & H).
  apply Normal_inj in H. subst e. cbn [title color].
  rewrite Hs, (getEventMetadata_inherited _ He).
  split; reflexivity.
Qed.

(** With the details, the embed starts with the five fields
    "Repository", "Event", "Actor", "Ref" and "Run Number", all inline:
    the repository name, linked when its URL is known and
    "Unknown Repository" without a name; the event name; the actor or
    "Unknown"; the ref as shown, or "Unknown"; "#" and the run number, or
    "#N/A". *)
Theorem leading_fields context jobStatus customTitle customDescription
    customColor now :
  yields (buildEmbed toLowerCase context jobStatus customTitle
            customDescription customColor true now)
    (raisesTypeError toLowerCase jobStatus customDescription)
    (fun e =>
       let url := repoUrl (payload context) in
       let shown := repoName (payload context) in
       firstn 5 (fields e)
       = map validateField
           [ {| name := Lit.package ++ str " Repository";
                value := if truthy (Str url)
                         then str "[" ++ shown ++ str "](" ++ url ++ str ")"
                         else shown;
                inline := true |};
             {| name := Lit.shuffle ++ str " Event";
                value := eventName context; inline := true |};
             {| name := Lit.bust ++ str " Actor";
                value := orElse (actor context) (str "Unknown");
                inline := true |};
             {| name := Lit.herb ++ str " Ref";
                value := displayRef (orElse (ref context) (str "Unknown"));
                inline := true |};
             {| name := Lit.numbers ++ str " Run Number";
                value := str "#" ++ (if truthy (runNumber context)
                                     then toString (runNumber context)
                                     else str "N/A");
                inline := true |} ]
       /\ (repository (payload context) = None ->
           shown = str "Unknown Repository" /\ url = [])).
Proof.
  embed_built d Hd. cbv zeta. cbn [fields]. split.
  - rewrite pushWorkflowRun_app, map_app, pushDetails_blocks, !map_app.
    unfold pushRepository, push.
    destruct (truthy (Str (repoUrl (payload context))));
      destruct (truthy (runNumber context)); reflexivity.
  - intros E. unfold repoName, repoUrl. now rewrite E.
Qed.

(** Without a custom description, the description is, cut to 4096 code
    units, "**workflow** - event description" for the status "success",
    and "**workflow** workflow label - event description", with the label
    of the status in lower case, for any other status that has a styling;
    the workflow is "GitHub Actions" when the context has none.  The
    footer is "GitHub Actions - workflow", cut to 2048.  (The dash stands
    for the bullet.) *)
Theorem description_resolution context jobStatus customTitle customDescription
    customColor includeDetails now :
  yields (buildEmbed toLowerCase context jobStatus customTitle
            customDescription customColor includeDetails now)
    (raisesTypeError toLowerCase jobStatus customDescription)
    (fun e =>
       let workflowName := orElse (workflow context) (str "GitHub Actions") in
       let eventDescription :=
         toString (field (fun m => Str (meta_description m))
                     (getEventMetadata (eventName context) (payload context))) in
       (truthy (ofString customDescription) = false ->
        toLowerCase jobStatus = str "success" ->
        description e
        = substring0 4096 (str "**" ++ workflowName ++ str "** " ++ Lit.bullet
                           ++ str " " ++ eventDescription))
       /\ (truthy (ofString customDescription) = false ->
           toLowerCase jobStatus <> str "success" ->
           forall s, getStatusStyling toLowerCase jobStatus = Own s ->
           description e
           = substring0 4096 (str "**" ++ workflowName ++ str "** workflow "
                              ++ toLowerCase (style_label s) ++ str " "
                              ++ Lit.bullet ++ str " " ++ eventDescription))
       /\ footer_text e
          = substring0 2048 (str "GitHub Actions " ++ Lit.bullet ++ str " "
                             ++ workflowName)
       /\ (workflow context = None -> workflowName = str "GitHub Actions")).
Proof.
  embed_built d Hd. cbv zeta. cbn [description footer_text].
  split; [|split; [|split]].
  - intros Hc Hs. rewrite Hc in Hd. apply streq_eq in Hs. rewrite Hs in Hd.
    cbn [negb] in Hd. apply Normal_inj in Hd. now subst d.
  - intros Hc Hs s Es. rewrite Hc in Hd. apply streq_neq in Hs.
    rewrite Hs, Es in Hd. cbn [negb field callToLowerCase bind] in Hd.
    apply Normal_inj in Hd. now subst d.
  - reflexivity.
  - now intros ->.
Qed.

End FurtherBuilderProperties.

(** The event "my_custom_event" is shown as "My Custom Event". *)
Lemma unknown_event_my_custom_event :
  exists title,
    getEventMetadata (str "my_custom_event") Sample.bare
    = Own {| meta_emoji := Lit.bell; meta_title := title;
             meta_description := str "GitHub event triggered";
             meta_color := 0x0366d6 |}
    /\ title = str "My Custom Event".
Proof.
  assert (S : ~ In (str "my_custom_event") supportedEvents).
  { unfold supportedEvents. cbn [map In]. intros H.
    repeat (destruct H as [H|H]; [vm_compute in H; discriminate|]).
    exact H. }
  assert (P : ~ In (str "my_custom_event") objectPrototypeKeys).
  { unfold objectPrototypeKeys. cbn [map In]. intros H.
    repeat (destruct H as [H|H]; [vm_compute in H; discriminate|]).
    exact H. }
  destruct (@unknown_event_metadata (str "my_custom_event") Sample.bare S P)
    as (title & E & T & _).
  exists title. split; [exact E|]. rewrite T. reflexivity.
Defined.

(** An event named "constructor", with the status "success". *)
Lemma inherited_event_constructor :
  exists e,
    buildEmbed asciiLower
      {| eventName := str "constructor"; payload := Sample.bare;
         workflow := None; runNumber := Undefined; runId := Undefined;
         actor := None; ref := None; sha := None |}
      (str "success") None None None true Sample.now = Normal e
    /\ title e = str "undefined undefined"
    /\ color e = Undefined.
Proof.
  apply (@inherited_event_name asciiLower
           {| eventName := str "constructor"; payload := Sample.bare;
              workflow := None; runNumber := Undefined; runId := Undefined;
              actor := None; ref := None; sha := None |}
           (str "success") None true Sample.now).
  - unfold objectPrototypeKeys. cbn [map In eventName]. now left.
  - reflexivity.
Defined.

Module JsonProperties.
Import Json.

(** Induction over a string read one code unit or one pair at a time. *)
Lemma pair_induction (P : jsstring -> Prop) :
  P [] ->
  (forall c rest,
     P rest -> (forall c' rest', rest = c' :: rest' -> P rest') ->
     P (c :: rest)) ->
  forall s, P s.
Proof.
  intros H0 Hs s.
  assert (A : P s /\ (forall c' rest', s = c' :: rest' -> P rest')).
  { induction s as [|c s [IH1 IH2]].
    - split; [exact H0 | discriminate].
    - split; [now apply Hs|]. now intros c' rest' [= _ <-]. }
  exact (proj1 A).
Qed.

(** *** UTF-8 *)

Lemma utf8Unit_ascii (c : char16) : (c < 0x80)%N -> utf8Unit c = [c].
Proof. intros H. unfold utf8Unit. apply N.ltb_lt in H. now rewrite H. Qed.

Lemma utf8Unit_length (c : char16) :
  (1 <= List.length (utf8Unit c) <= 3)%nat
  /\ ((0x80 <= c)%N -> (2 <= List.length (utf8Unit c))%nat).
Proof.
  unfold utf8Unit.
  destruct (c <? 0x80)%N eqn:A;
    [|destruct (c <? 0x800)%N; [|destruct (_ || _)%bool]];
    cbn [List.length]; split; try lia.
  apply N.ltb_lt in A. lia.
Qed.

Lemma isHighSurrogate_large (c : char16) :
  isHighSurrogate c = true -> (0x80 <= c)%N.
Proof.
  unfold isHighSurrogate. intros H. apply andb_true_iff in H.
  destruct H as [H _]. apply N.leb_le in H. lia.
Qed.

(** The encoding has at least one byte and at most three for each code
    unit, and more bytes than code units as soon as one code unit is not
    ASCII. *)
Lemma utf8_length (s : jsstring) :
  (List.length s <= List.length (utf8 s) <= 3 * List.length s)%nat
  /\ (Exists (fun c => (0x80 <= c)%N) s ->
      (List.length s < List.length (utf8 s))%nat).
Proof.
  induction s as [|c rest IH IH'] using pair_induction.
  - cbn. split; [lia|]. intros H. inversion H.
  - pose proof (utf8Unit_length c) as [U1 U2].
    cbn [utf8]. destruct (isHighSurrogate c) eqn:Hc.
    + pose proof (U2 (isHighSurrogate_large _ Hc)) as U3.
      destruct rest as [|c' rest'].
      * cbn [List.length]. split; [lia|]. intros _. lia.
      * destruct (isLowSurrogate c').
        -- destruct (IH' c' rest' eq_refl) as [[L1 L2] _].
           rewrite length_app. cbn [List.length utf8Pair].
           split; [lia|]. intros _. lia.
        -- destruct IH as [[L1 L2] _]. rewrite length_app.
           cbn [List.length] in *. split; [lia|]. intros _. lia.
    + destruct IH as [[L1 L2] L3]. rewrite length_app.
      cbn [List.length]. split; [lia|].
      intros H. inversion H as [? ? Hx|? ? Hx]; subst.
      * specialize (U2 Hx). lia.
      * specialize (L3 Hx). lia.
Qed.

Lemma utf8_ascii (s : jsstring) :
  Forall (fun c => (c < 0x80)%N) s -> utf8 s = s.
Proof.
  induction 1 as [|c s Hc _ IH]; [reflexivity|].
  cbn [utf8].
  assert (N : isHighSurrogate c = false).
  { unfold isHighSurrogate. apply andb_false_iff. left.
    apply N.leb_gt. lia. }
  now rewrite N, utf8Unit_ascii, IH.
Qed.

(** *** QuoteJSONString *)

Lemma escapeUnit_plain (c : char16) : plain c -> escapeUnit c = [c].
Proof.
  intros (H32 & H34 & H92 & Hh & Hl). unfold escapeUnit.
  repeat match goal with
    | |- context [(c =? ?k)%N] =>
        let E := fresh "E" in
        destruct (c =? k)%N eqn:E; [apply N.eqb_eq in E; lia|]
    end.
  rewrite Hh, Hl. assert (L : (c <? 32)%N = false) by (apply N.ltb_ge; lia).
  now rewrite L.
Qed.

Lemma quoteChars_plain (c : char16) (s : jsstring) :
  plain c -> In c s -> In c (quoteChars s).
Proof.
  intros Hp. induction s as [|x rest IH IH'] using pair_induction; [easy|].
  cbn [quoteChars]. intros Hin.
  destruct (isHighSurrogate x) eqn:Hx.
  - assert (c <> x).
    { intros ->. destruct Hp as (_ & _ & _ & Hh & _). congruence. }
    destruct Hin as [->|Hin]; [easy|].
    destruct rest as [|x' rest']; [easy|].
    destruct (isLowSurrogate x') eqn:Hx'.
    + assert (c <> x').
      { intros ->. destruct Hp as (_ & _ & _ & _ & Hl). congruence. }
      destruct Hin as [->|Hin]; [easy|].
      right; right. now apply (IH' x' rest').
    + apply in_or_app. right. now apply IH.
  - apply in_or_app. destruct Hin as [->|Hin].
    + left. rewrite escapeUnit_plain by exact Hp. now left.
    + right. now apply IH.
Qed.

Lemma in_join (x : char16) (sep part : jsstring) (parts : list jsstring) :
  In part parts -> In x part -> In x (join sep parts).
Proof.
  intros Hp Hx. induction parts as [|p parts IH]; [easy|].
  destruct Hp as [->|Hp].
  - destruct parts; cbn [join]; [exact Hx|]. apply in_or_app. now left.
  - specialize (IH Hp). destruct parts as [|p' parts]; [easy|].
    cbn [join] in *. apply in_or_app. right. apply in_or_app. now right.
Qed.

Section Wire.

Variable largeNumberText : Z -> jsstring.

Lemma serialize_fields (fields : list Field) :
  serialize largeNumberText [] [] (JArray (map ofField fields))
  = Some (fieldsText fields).
Proof.
  cbn [serialize app]. rewrite map_map.
  rewrite (map_ext _ fieldText)
    by (intros f; unfold ofField, fieldText; now destruct (inline f)).
  now destruct fields.
Qed.

Lemma stringify_message (e : Embed) :
  stringify largeNumberText (ofMessage e) = Some (messageText largeNumberText e).
Proof.
  unfold messageText, stringify, ofMessage, ofEmbed.
  assert (F := serialize_fields (fields e)).
  cbn [serialize app] in F. injection F as F.
  destruct (color e) as [| |[|]|[z| |negative]|s];
    cbn [serialize flat_map map snd fst app ofPrim numberText];
    rewrite F; reflexivity.
Qed.

(** The text sent for an embed: one object under the key "embeds", with
    the members title, description, color, fields, timestamp and
    footer.text in this order.  The member "color" is left out when the
    embed has no colour, and reads [null] when the colour is NaN. *)
Theorem wire_format (e : Embed) :
  stringify largeNumberText (ofMessage e)
  = Some (str "{"
          ++ member "embeds"
               (str "["
                ++ (str "{"
                    ++ join (str ",")
                         ([ member "title" (quote (title e));
                            member "description" (quote (description e)) ]
                          ++ match color e with
                             | Undefined => []
                             | Null => [member "color" (str "null")]
                             | Boolean b =>
                                 [member "color"
                                    (if b then str "true" else str "false")]
                             | Num NaN => [member "color" (str "null")]
                             | Num (Infinity _) =>
                                 [member "color" (str "null")]
                             | Num (Int z) =>
                                 [member "color"
                                    (if (Z.abs z <? 2 ^ 53)%Z
                                     then toString (Num (Int z))
                                     else largeNumberText z)]
                             | Str s => [member "color" (quote s)]
                             end
                          ++ [ member "fields" (fieldsText (fields e));
                               member "timestamp" (quote (timestamp e));
                               member "footer"
                                 (str "{"
                                  ++ member "text" (quote (footer_text e))
                                  ++ str "}") ])
                    ++ str "}")
                ++ str "]")
          ++ str "}").
Proof.
  unfold stringify, ofMessage, ofEmbed.
  assert (F := serialize_fields (fields e)).
  cbn [serialize app] in F. injection F as F.
  destruct (color e) as [| |[|]|[z| |negative]|s];
    cbn [serialize flat_map map snd fst app ofPrim numberText];
    rewrite F; reflexivity.
Qed.

(** The request declares the number of bytes it writes, which is at
    least the number of code units of the text and at most three times
    as many; the two agree for a text of ASCII characters only, and any
    other character makes the count of code units, the header of the
    older variant, too small. *)
Theorem content_length (url : URL) (data : jsstring) :
  let r := requestOf url data in
  contentLength r = List.length (body r)
  /\ (legacyContentLength data <= contentLength r
      <= 3 * legacyContentLength data)%nat
  /\ (Forall (fun c => (c < 0x80)%N) data ->
      body r = data /\ contentLength r = legacyContentLength data)
  /\ (Exists (fun c => (0x80 <= c)%N) data ->
      (legacyContentLength data < contentLength r)%nat).
Proof.
  cbv zeta. cbn [requestOf contentLength body]. unfold legacyContentLength.
  destruct (utf8_length data) as [B S].
  split; [reflexivity|]. split; [exact B|]. split; [|exact S].
  intros A. now rewrite (@utf8_ascii data A).
Qed.

(** The bullet of the footer is in the text of every embed the builder
    returns. *)
Lemma bullet_in_text (e : Embed) (workflowName data : jsstring) :
  footer_text e
  = substring0 2048 (str "GitHub Actions " ++ Lit.bullet ++ str " "
                     ++ workflowName) ->
  stringify largeNumberText (ofMessage e) = Some data ->
  In 0x2022%N data.
Proof.
  intros Hf Hd. rewrite stringify_message in Hd. unfold messageText in Hd.
  apply (f_equal (fun o => match o with Some t => t | None => [] end)) in Hd.
  cbv beta iota in Hd. subst data.
  assert (Q : In 0x2022%N (quote (footer_text e))).
  { unfold quote. apply in_or_app; right. apply in_or_app; left.
    apply quoteChars_plain; [vm_compute; repeat split; discriminate|].
    rewrite Hf. unfold substring0.
    change (str "GitHub Actions " ++ Lit.bullet ++ str " " ++ workflowName)
      with (str "GitHub Actions " ++ 0x2022%N :: str " " ++ workflowName).
    rewrite firstn_app. apply in_or_app; right.
    cbn. now left. }
  apply in_or_app; right. apply in_or_app; left.
  unfold member at 1. apply in_or_app; right. apply in_or_app; right.
  apply in_or_app; right. apply in_or_app; left.
  apply in_or_app; right. apply in_or_app; left.
  eapply in_join.
  - apply in_or_app; right. apply in_or_app; right.
    cbn [In]. right; right; left. reflexivity.
  - unfold member. apply in_or_app; right. apply in_or_app; right.
    apply in_or_app; right. apply in_or_app; left.
    apply in_or_app; right. apply in_or_app; right. exact Q.
Qed.

Variable toLowerCase : jsstring -> jsstring.

(** For every embed the builder returns, the text has a character that
    is not ASCII (the bullet of the footer), so the request declares a
    Content-Length larger than the count of code units the older variant
    declared. *)
Theorem content_length_of_built_embed context jobStatus customTitle
    customDescription customColor includeDetails now (url : URL) :
  yields (buildEmbed toLowerCase context jobStatus customTitle
            customDescription customColor includeDetails now)
    (raisesTypeError toLowerCase jobStatus customDescription)
    (fun e =>
       exists data,
         stringify largeNumberText (ofMessage e) = Some data
         /\ In 0x2022%N data
         /\ (legacyContentLength data
             < contentLength (requestOf url data))%nat
         /\ contentLength (requestOf url data)
            = List.length (body (requestOf url data))).
Proof.
  apply yields_built; [apply buildEmbed_cases|]. intros e He.
  assert (Hf : footer_text e
               = substring0 2048
                   (str "GitHub Actions " ++ Lit.bullet ++ str " "
                    ++ orElse (workflow context) (str "GitHub Actions"))).
  { unfold buildEmbed in He; cbv zeta in He.
    apply bind_Normal_inv in He. destruct He as (d & _ & He).
    apply Normal_inj in He. now subst e. }
  destruct (stringify largeNumberText (ofMessage e)) as [data|] eqn:D;
    [|now rewrite stringify_message in D].
  exists data. split; [reflexivity|].
  pose proof (@bullet_in_text e _ data Hf D) as B.
  split; [exact B|]. split; [|reflexivity].
  apply (utf8_length data). apply Exists_exists.
  exists 0x2022%N. split; [exact B | lia].
Qed.

End Wire.

End JsonProperties.

(* ================================================================= *)
Module ActionProperties.
Import Json Action.

(** After the body and the end of a response the promise is settled by
    the status alone. *)
Lemma settlementOf_responds (statusCode : Z) (chunks : list jsstring) :
  settlementOf (Responds statusCode chunks)
  = Some (if ((200 <=? statusCode) && (statusCode <? 300))%Z
          then Delivery.Resolved
          else Delivery.Rejected
                 (Delivery.Error
                    (str "Discord webhook returned status "
                     ++ toString (Num (Int statusCode)) ++ str ": "
                     ++ List.concat chunks))).
Proof.
  unfold settlementOf, Delivery.sendDiscordMessage, Delivery.response.
  rewrite fold_left_app, DeliveryProperties.data_events.
  cbn [fold_left Delivery.handle Delivery.initial app Delivery.responseData
       Delivery.promise].
  now destruct ((200 <=? statusCode) && (statusCode <? 300))%Z.
Qed.

Lemma settlementOf_fails (e : Delivery.error) :
  settlementOf (Fails e) = Some (Delivery.Rejected e).
Proof. reflexivity. Qed.

(** Without the end of the response, and without an error of the
    request, the promise is never settled. *)
Lemma settlementOf_stalls (statusCode : Z) (chunks : list jsstring) :
  settlementOf (Stalls statusCode chunks) = None.
Proof.
  unfold settlementOf, Delivery.sendDiscordMessage.
  now rewrite DeliveryProperties.data_events.
Qed.

Lemma in_range (statusCode : Z) :
  ((200 <=? statusCode) && (statusCode <? 300))%Z = true
  <-> (200 <= statusCode < 300)%Z.
Proof. rewrite andb_true_iff, Z.leb_le, Z.ltb_lt. reflexivity. Qed.

Section Run.

Variable toLowerCase : jsstring -> jsstring.
Variable largeNumberText : Z -> jsstring.
Variable getInput : jsstring -> bool -> result jsstring.
Variable newURL : jsstring -> result URL.
Variable typeErrorMessage : jsstring.

(** The text logged for the payload opens with a brace. *)
Lemma pretty_head (e : Embed) :
  exists rest,
    toString (ofString (stringify2 largeNumberText (ofMessage e)))
    = 0x7B%N :: rest.
Proof.
  unfold stringify2, ofMessage. cbn [serialize flat_map snd fst app].
  unfold wrap at 1. change (streq (str "  ") []) with false.
  cbv beta iota. change (str "{") with [0x7B%N].
  cbn [app ofString toString]. eexists. reflexivity.
Qed.

(** [JSON.stringify] gives a text for every message. *)
Lemma stringify_text (e : Embed) :
  exists data, stringify largeNumberText (ofMessage e) = Some data.
Proof. unfold stringify, ofMessage. cbn [serialize]. eexists. reflexivity. Qed.

Ltac other_line :=
  let E := fresh "E" in
  split;
  [ unfold completed; intros E; try discriminate E; injection E as E;
    first [ solve [ apply (f_equal (fun s => nth 0 s 0%N)) in E;
                    vm_compute in E; discriminate E ]
          | solve [ apply (f_equal (fun s => nth 21 s 0%N)) in E;
                    vm_compute in E; discriminate E ] ]
  | intros ? E; discriminate E ].

Ltac ordinary_lines :=
  repeat (apply Forall_cons; [other_line|]); apply Forall_nil.

Ltac same_inputs :=
  repeat match goal with
         | I : ?x = Value _, I' : ?x = Value _ |- _ =>
             rewrite I in I'; injection I' as I'; subst
         end.

Ltac not_delivered :=
  let Hn := fresh "Hnet" in
  let Hr := fresh "Hrange" in
  intros (? & ? & ? & ?
          & (? & ? & ? & ? & ? & ? & ? & ? & ? & ? & ? & ? & ? & ?)
          & Hn & Hr);
  same_inputs;
  try (injection Hn as -> ->; apply in_range in Hr); congruence.

Ltac not_stalled :=
  let Hn := fresh "Hnet" in
  intros (? & ? & ? & ?
          & (? & ? & ? & ? & ? & ? & ? & ? & ? & ? & ? & ? & ? & ?)
          & Hn);
  same_inputs; congruence.

Ltac failed :=
  right; left;
  match goal with
  | |- exists front message, (?l, _) = _ /\ _ => exists (removelast l)
  end;
  eexists; cbn [removelast]; split; [reflexivity|];
  split; [ordinary_lines|]; split; [not_delivered | not_stalled].

(** How a run ends.  When the notification is delivered, its last call
    is the line "Discord notification completed successfully!".  When
    the request is made and the end of the response never comes, the
    run waits on the promise for ever: it prints neither that line nor
    a failure.  In every other case its last call is one
    [core.setFailed] with "Action failed: " before the message of the
    error.  No earlier call is the closing line or a failure, and the
    run itself never throws. *)
Theorem run_outcome (context : Context) (now : jsstring) (net : exchange) :
  let result :=
    run toLowerCase largeNumberText getInput newURL typeErrorMessage
      context now net in
  (exists front,
      result = (front ++ [completed], Returned tt)
      /\ Forall ordinary front
      /\ delivered toLowerCase getInput newURL context now net)
  \/ (exists front message,
         result = (front ++ [SetFailed (str "Action failed: " ++ message)],
                   Returned tt)
         /\ Forall ordinary front
         /\ ~ delivered toLowerCase getInput newURL context now net
         /\ ~ stalled toLowerCase getInput newURL context now net)
  \/ (exists calls,
         result = (calls, Pending)
         /\ Forall ordinary calls
         /\ stalled toLowerCase getInput newURL context now net).
Proof.
  cbv zeta. unfold run, sendDiscordMessage.
  destruct (getInput (str "webhook-url") true) as [w|m] eqn:I1;
    cbn [call_ andThen tryCatch tell app];
    [|failed].
  destruct (getInput (str "job-status") false) as [js|m] eqn:I2;
    cbn [call_ andThen tryCatch tell app];
    [|failed].
  destruct (getInput (str "title") false) as [t|m] eqn:I3;
    cbn [call_ andThen tryCatch tell app];
    [|failed].
  destruct (getInput (str "description") false) as [d|m] eqn:I4;
    cbn [call_ andThen tryCatch tell app];
    [|failed].
  destruct (getInput (str "color") false) as [c|m] eqn:I5;
    cbn [call_ andThen tryCatch tell app];
    [|failed].
  destruct (getInput (str "include-details") false) as [i|m] eqn:I6;
    cbn [call_ andThen tryCatch tell app];
    [|failed].
  cbn [orElse].
  destruct (buildEmbed toLowerCase context
              (if streq js [] then str "success" else js)
              (Some t) (Some d) (Some c) (streq i (str "true")) now)
    as [e|[]] eqn:B;
    cbn [call_ andThen tryCatch tell app];
    [|failed].
  destruct (pretty_head e) as [rest P]. rewrite P.
  destruct (newURL w) as [url|m] eqn:U;
    cbn [call_ andThen tryCatch tell app];
    [|failed].
  destruct (stringify_text e) as [data D]. rewrite D.
  cbn [call_ andThen tryCatch tell app].
  assert (Pr : prepared toLowerCase getInput newURL context now e url)
    by (exists w, js, t, d, c, i; repeat split; assumption).
  destruct net as [s chunks|[m]|s chunks];
    [ rewrite settlementOf_responds | rewrite settlementOf_fails
    | rewrite settlementOf_stalls ].
  - destruct ((200 <=? s) && (s <? 300))%Z eqn:R;
      cbn [call_ andThen tryCatch tell app lift].
    + left.
      match goal with
      | |- exists front, (?l, _) = _ /\ _ => exists (removelast l)
      end.
      cbn [removelast]. split; [reflexivity|]. split; [ordinary_lines|].
      exists e, url, s, chunks.
      split; [exact Pr | split; [reflexivity | now apply in_range]].
    + failed.
  - cbn [call_ andThen tryCatch tell app lift]. failed.
  - cbn [call_ andThen tryCatch tell app lift]. right; right.
    eexists. split; [reflexivity|]. split; [ordinary_lines|].
    exists e, url, s, chunks. split; [exact Pr | reflexivity].
Qed.

Ltac unprepared :=
  let H1 := fresh "H" in
  let H2 := fresh "H" in
  let H3 := fresh "H" in
  let H4 := fresh "H" in
  let H5 := fresh "H" in
  let H6 := fresh "H" in
  let H7 := fresh "H" in
  let H8 := fresh "H" in
  intros ? ? (? & ? & ? & ? & ? & ?
              & H1 & H2 & H3 & H4 & H5 & H6 & H7 & H8);
  repeat match goal with
         | I : ?x = Value _, I' : ?x = Value _ |- _ =>
             rewrite I in I'; injection I' as I'; subst
         end;
  congruence.

Ltac no_request :=
  right; split; [unprepared | reflexivity].

(** The run makes one request when the inputs are read, the embed is
    built and the webhook URL is a URL, whatever the webhook answers,
    and none otherwise.  The request is the one for that URL, with the
    text of the message holding the one embed built from the inputs (the
    status "success" for an empty job-status, the details only for the
    input "true" itself). *)
Theorem run_posts (context : Context) (now : jsstring) (net : exchange) :
  let calls :=
    fst (run toLowerCase largeNumberText getInput newURL typeErrorMessage
           context now net) in
  (exists embed url data,
      prepared toLowerCase getInput newURL context now embed url
      /\ stringify largeNumberText (ofMessage embed) = Some data
      /\ requests calls = [requestOf url data])
  \/ ((forall embed url,
          ~ prepared toLowerCase getInput newURL context now embed url)
      /\ requests calls = []).
Proof.
  cbv zeta. unfold run, sendDiscordMessage.
  destruct (getInput (str "webhook-url") true) as [w|m] eqn:I1;
    cbn [call_ andThen tryCatch tell app fst];
    [|no_request].
  destruct (getInput (str "job-status") false) as [js|m] eqn:I2;
    cbn [call_ andThen tryCatch tell app fst];
    [|no_request].
  destruct (getInput (str "title") false) as [t|m] eqn:I3;
    cbn [call_ andThen tryCatch tell app fst];
    [|no_request].
  destruct (getInput (str "description") false) as [d|m] eqn:I4;
    cbn [call_ andThen tryCatch tell app fst];
    [|no_request].
  destruct (getInput (str "color") false) as [c|m] eqn:I5;
    cbn [call_ andThen tryCatch tell app fst];
    [|no_request].
  destruct (getInput (str "include-details") false) as [i|m] eqn:I6;
    cbn [call_ andThen tryCatch tell app fst];
    [|no_request].
  cbn [orElse].
  destruct (buildEmbed toLowerCase context
              (if streq js [] then str "success" else js)
              (Some t) (Some d) (Some c) (streq i (str "true")) now)
    as [e|[]] eqn:B;
    cbn [call_ andThen tryCatch tell app fst];
    [|no_request].
  destruct (newURL w) as [url|m] eqn:U;
    cbn [call_ andThen tryCatch tell app fst];
    [|no_request].
  destruct (stringify_text e) as [data D]. rewrite D.
  left. exists e, url, data.
  split; [exists w, js, t, d, c, i; repeat split; assumption|].
  split; [exact D|].
  destruct net as [s chunks|[m]|s chunks];
    [ rewrite settlementOf_responds | rewrite settlementOf_fails
    | rewrite settlementOf_stalls ];
    [destruct ((200 <=? s) && (s <? 300))%Z| |];
    reflexivity.
Qed.

(** Once the request is made, the failure set is the one of the
    delivery: none for a status in [200, 300), the status and the body
    of the answer for any other status, and the message of the error of
    the transport when there is no answer.  None is set either while
    the end of the response does not come. *)
Theorem run_failure (context : Context) (now : jsstring) (net : exchange)
    (embed : Embed) (url : URL) :
  prepared toLowerCase getInput newURL context now embed url ->
  failures
    (fst (run toLowerCase largeNumberText getInput newURL typeErrorMessage
            context now net))
  = match net with
    | Responds statusCode chunks =>
        if ((200 <=? statusCode) && (statusCode <? 300))%Z
        then []
        else [str "Action failed: "
              ++ str "Discord webhook returned status "
              ++ toString (Num (Int statusCode)) ++ str ": "
              ++ List.concat chunks]
    | Fails (Delivery.Error message) => [str "Action failed: " ++ message]
    | Stalls _ _ => []
    end.
Proof.
  intros (w & js & t & d & c & i & I1 & I2 & I3 & I4 & I5 & I6 & B & U).
  unfold run, sendDiscordMessage.
  rewrite I1, I2, I3, I4, I5, I6. cbn [call_ andThen tryCatch tell app orElse].
  rewrite B, U. cbn [call_ andThen tryCatch tell app].
  destruct (stringify_text embed) as [data D]. rewrite D.
  destruct net as [s chunks|[m]|s chunks];
    [ rewrite settlementOf_responds | rewrite settlementOf_fails
    | rewrite settlementOf_stalls ];
    [destruct ((200 <=? s) && (s <? 300))%Z| |];
    reflexivity.
Qed.

(** The inputs are all read before anything is logged: when reading one
    of them throws, the run only sets the failure with the message of
    that error. *)
Theorem input_error (context : Context) (now : jsstring) (net : exchange)
    (before after : list (jsstring * bool)) (name : jsstring)
    (required : bool) (message : jsstring) :
  inputNames = before ++ (name, required) :: after ->
  Forall (fun input => exists v, getInput (fst input) (snd input) = Value v)
    before ->
  getInput name required = Threw message ->
  run toLowerCase largeNumberText getInput newURL typeErrorMessage
    context now net
  = ([SetFailed (str "Action failed: " ++ message)], Returned tt).
Proof.
  intros N V T. unfold run. unfold inputNames in N.
  repeat (destruct before as [|[? ?] before]; cbn [app] in N;
          [ injection N as <- <- <-; rewrite T; reflexivity
          | injection N as <- <- N; apply Forall_cons_iff in V;
            let I := fresh "I" in
            destruct V as [[? I] V]; cbn [fst snd] in I; rewrite I;
            cbn [call_ andThen] ]).
  destruct before; discriminate N.
Qed.

End Run.

(** A run on a push to main whose webhook answers 500 with the body
    "oops". *)
Lemma run_failure_status_500 :
  failures
    (fst (run asciiLower (fun _ => []) ActionSample.inputs
            (fun _ => Value ActionSample.hook) []
            (Sample.pushOf Sample.main Sample.five) Sample.now
            (Responds 500 [str "oo"; str "ps"])))
  = [str "Action failed: Discord webhook returned status 500: oops"].
Proof.
  refine (@run_failure asciiLower (fun _ => []) ActionSample.inputs
            (fun _ => Value ActionSample.hook) []
            (Sample.pushOf Sample.main Sample.five) Sample.now
            (Responds 500 [str "oo"; str "ps"]) _ ActionSample.hook _).
  exists (str "https://discord.com/api/webhooks/1/x"), [], [], [], [],
         (str "false").
  repeat split; reflexivity.
Defined.

(** A run without the required input webhook-url. *)
Lemma input_error_missing_webhook :
  run asciiLower (fun _ => []) ActionSample.missing
    (fun _ => Value ActionSample.hook) []
    (Sample.pushOf Sample.main Sample.five) Sample.now (Responds 204 [])
  = ([SetFailed
        (str "Action failed: Input required and not supplied: webhook-url")],
     Returned tt).
Proof.
  refine (@input_error asciiLower (fun _ => []) ActionSample.missing
            (fun _ => Value ActionSample.hook) []
            (Sample.pushOf Sample.main Sample.five) Sample.now
            (Responds 204 []) [] (tl inputNames) (str "webhook-url") true
            (str "Input required and not supplied: webhook-url") _ _ _).
  - reflexivity.
  - apply Forall_nil.
  - reflexivity.
Defined.

End ActionProperties.

(* ================================================================= *)
(** ** sendDiscordMessage: the first end or error settles the promise *)
(* ================================================================= *)

Module SettlementProperties.
Import Delivery.

(** While only chunks of the body arrive the promise is pending.  The
    first end of the response or error of the request settles it, and
    nothing that is emitted later changes it: an error of the transport
    after a part of the body rejects with that error, whatever the
    status, and an error after the end of the response leaves the
    outcome the status gave. *)
Theorem first_settlement_stays (statusCode : Z) (chunks : list jsstring)
    (later : list event) :
  sendDiscordMessage statusCode (map ResData chunks) = None
  /\ (forall e,
         sendDiscordMessage statusCode
           (map ResData chunks ++ ReqError e :: later)
         = Some (Rejected e))
  /\ sendDiscordMessage statusCode (map ResData chunks ++ ResEnd :: later)
     = sendDiscordMessage statusCode (response chunks)
  /\ sendDiscordMessage statusCode (response chunks) <> None.
Proof.
  unfold sendDiscordMessage, response.
  rewrite !fold_left_app, !DeliveryProperties.data_events.
  cbn [fold_left handle responseData promise app]. unfold initial.
  cbn [responseData promise].
  split; [reflexivity|]. split; [|split].
  - intros e. rewrite fold_left_app, DeliveryProperties.data_events.
    cbn [fold_left]. apply DeliveryProperties.settled_stays. reflexivity.
  - destruct ((200 <=? statusCode) && (statusCode <? 300))%Z;
      unfold settle; cbn [promise responseData];
      apply DeliveryProperties.settled_stays; reflexivity.
  - destruct ((200 <=? statusCode) && (statusCode <? 300))%Z; discriminate.
Qed.

End SettlementProperties.

(* ================================================================= *)
(** ** buildEmbed reads its arguments and the clock, and nothing else *)
(* ================================================================= *)

Module EffectsProperties.

Ltac block :=
  intros [context fields now done]; cbv beta delta [Effects.withArray];
  cbn [Effects.input Effects.array Effects.clock Effects.trace].











Section Builder.

Variable toLowerCase : jsstring -> jsstring.



End Builder.

End EffectsProperties.
